(** * A to-do list REST service (app.py): shallow embedding and properties

    The program is one Flask module.  It keeps a module-level list [tasks]
    of task dictionaries and registers two Flask-RESTful resources,
    [TaskListAPI] (the collection) and [TaskAPI] (one item), both guarded by
    HTTP basic authentication.

    The embedding follows the Python text:
    - a task dictionary is a record with the four keys the code uses;
    - the global list is the state of a small state-and-exception monad [M];
    - [abort(code)] and the errors raised by the request parser end a
      handler with [Abort code]; the state is left as it is at that point;
    - the parts of Flask-RESTful and Flask-HTTPAuth that the handlers call
      (argument parsing, marshalling, the login decorator) are written out
      as functions named after the library entry points.

    Python 3 semantics is assumed for [str] and [bool]. *)

From Stdlib Require Import ZArith String List Lia.
From stdpp Require Import base decidable option list gmap strings pretty sorting.

Local Open Scope string_scope.
Local Open Scope list_scope.
Local Open Scope Z_scope.

(** ** Values *)

(** A decoded JSON document, as [request.get_json()] yields it and as a
    handler returns it.  Numbers with a fractional part are not modelled. *)
#[local] Unset Elimination Schemes.
Inductive json :=
| JNull
| JBool (b : bool)
| JInt (n : Z)
| JStr (s : string)
| JArr (items : list json)
| JObj (members : list (string * json)).
#[local] Set Elimination Schemes.

(** The Python values the code stores under the keys [title], [description]
    and [done] of a task: [None], a [bool] or a [str]. *)
Inductive pyval :=
| PNone
| PBool (b : bool)
| PStr (s : string).

Global Instance pyval_eq_dec : EqDecision pyval.
Proof. solve_decision. Defined.

(** One element of [tasks]. *)
Record Task := mkTask {
  id : Z;
  title : pyval;
  description : pyval;
  done : pyval
}.

Global Instance Task_eq_dec : EqDecision Task.
Proof. solve_decision. Defined.

(** The keys a request parser can write into a task. *)
Inductive field := Title | Description | Done.

Global Instance field_eq_dec : EqDecision field.
Proof. solve_decision. Defined.

Definition field_name (f : field) : string :=
  match f with
  | Title => "title"
  | Description => "description"
  | Done => "done"
  end.

(** [task[k]] *)
Definition getitem (t : Task) (k : field) : pyval :=
  match k with
  | Title => title t
  | Description => description t
  | Done => done t
  end.

(** [task[k] = v] *)
Definition setitem (t : Task) (k : field) (v : pyval) : Task :=
  match k with
  | Title => mkTask (id t) v (description t) (done t)
  | Description => mkTask (id t) (title t) v (done t)
  | Done => mkTask (id t) (title t) (description t) v
  end.

(** The module-level list at import time. *)
Definition tasks : list Task :=
  [ mkTask 1 (PStr "Buy groceries") (PStr "Milk, Cheese, Pizza, Fruit")
      (PBool false);
    mkTask 2 (PStr "Learn Python")
      (PStr "Need to find a good Python tutorial on the web") (PBool false) ].

(** ** Handler outcomes and the handler monad *)

(** A handler either returns a value or is ended by an HTTP exception. *)
Inductive outcome (A : Type) :=
| Ret (a : A)
| Abort (code : Z).
Global Arguments Ret {A} a.
Global Arguments Abort {A} code.

Global Instance outcome_ret : MRet outcome := λ A a, Ret a.
Global Instance outcome_bind : MBind outcome := λ A B f m,
  match m with
  | Ret a => f a
  | Abort c => Abort c
  end.

(** Handlers read and assign the global list. *)
Definition M (A : Type) : Type := list Task → outcome A * list Task.

Global Instance M_ret : MRet M := λ A a st, (Ret a, st).
Global Instance M_bind : MBind M := λ A B f m st,
  match m st with
  | (Ret a, st') => f a st'
  | (Abort c, st') => (Abort c, st')
  end.

Definition get_tasks : M (list Task) := λ st, (Ret st, st).
Definition set_tasks (l : list Task) : M unit := λ _, (Ret tt, l).
Definition abort {A} (code : Z) : M A := λ st, (Abort code, st).
Definition lift {A} (o : outcome A) : M A := λ st, (o, st).

(** An uncaught Python exception ([IndexError], [KeyError], [ValueError])
    reaches the client as an internal server error. *)
Definition raise {A} : M A := abort 500.

(** What a view function returns: a body and a status code. *)
Definition response : Type := json * Z.

Definition status_of (o : outcome response) : Z :=
  match o with
  | Ret (_, s) => s
  | Abort c => c
  end.

(** ** Sample values for the closed examples *)

(** A stand-in for Python's [repr] on arrays and objects. *)
Definition no_repr : json → string := λ _, "".

Definition buy_groceries : Task :=
  mkTask 1 (PStr "Buy groceries") (PStr "Milk, Cheese, Pizza, Fruit")
    (PBool false).

Definition learn_python : Task :=
  mkTask 2 (PStr "Learn Python")
    (PStr "Need to find a good Python tutorial on the web") (PBool false).

Definition buy_milk : Task :=
  mkTask 3 (PStr "Buy milk") (PStr "") (PBool false).

(** The body {"title": "Buy milk"}. *)
Definition title_only : gmap string json := {[ "title" := JStr "Buy milk" ]}.

(** The body {"done": true}. *)
Definition done_true : gmap string json := {[ "done" := JBool true ]}.

(** The body {"done": "false"}. *)
Definition done_text : gmap string json := {[ "done" := JStr "false" ]}.

(** The user user1 with the password pässword. *)
Definition non_ascii_credentials : option (string * string) :=
  Some ("user1", "pässword").

(** The body {"title": 5}. *)
Definition title_number : gmap string json := {[ "title" := JInt 5 ]}.

(** ** The libraries the handlers call *)

Section App.

(** Python's [repr] text of a decoded JSON array or object.  The program
    never inspects such a text, so it is left open. *)
Variable py_repr : json → string.

(** [str(v)] *)
Definition py_str (v : json) : string :=
  match v with
  | JNull => "None"
  | JBool true => "True"
  | JBool false => "False"
  | JInt n => pretty n
  | JStr s => s
  | JArr _ | JObj _ => py_repr v
  end.

(** [bool(v)]: Python truth value. *)
Definition py_bool (v : json) : bool :=
  match v with
  | JNull => false
  | JBool b => b
  | JInt n => negb (n =? 0)
  | JStr s => negb (bool_decide (s = ""))
  | JArr items => negb (bool_decide (items = []))
  | JObj members => negb (bool_decide (members = []))
  end.

(** *** flask_restful.reqparse *)

(** The [type=] callables the program passes to [add_argument]. *)
Inductive pytype := type_str | type_bool.

(** [reqparse.Argument], with the keywords the program sets.  Every
    argument is read from the JSON body ([location='json']); [help] only
    changes the text of the error message. *)
Record Argument := mkArgument {
  name : field;
  type : pytype;
  required : bool;
  default : pyval
}.

(** [Argument.convert]: [None] is passed through (arguments are nullable),
    any other value is handed to the [type] callable.  Neither [str] nor
    [bool] raises on a decoded JSON value. *)
Definition convert (ty : pytype) (v : json) : pyval :=
  match v with
  | JNull => PNone
  | _ =>
    match ty with
    | type_str => PStr (py_str v)
    | type_bool => PBool (py_bool v)
    end
  end.

(** [Argument.parse]: the value found under the argument's name, converted;
    a missing required argument ends the request with 400; a missing
    optional one yields the default. *)
Definition parse (a : Argument) (body : gmap string json) : outcome pyval :=
  match body !! field_name (name a) with
  | Some v => Ret (convert (type a) v)
  | None => if required a then Abort 400 else Ret (default a)
  end.

(** [RequestParser.parse_args]: the namespace of all declared arguments, in
    declaration order ([store_missing] is on, so an absent argument is
    stored with its default). *)
Fixpoint parse_args (args : list Argument) (body : gmap string json)
  : outcome (list (field * pyval)) :=
  match args with
  | [] => Ret []
  | a :: rest =>
    v ← parse a body;
    ns ← parse_args rest body;
    Ret ((name a, v) :: ns)
  end.

(** [args[k]] on a namespace. *)
Definition namespace_get (ns : list (field * pyval)) (k : field) : option pyval :=
  (λ hit, snd (snd hit)) <$> list_find (λ p, fst p = k) ns.

(** *** flask_restful.fields and marshal *)

Inductive fields :=
| fields_String
| fields_Boolean
| fields_Url (endpoint : string).

(** The registered routes: [url_for(endpoint, id=...)] keeps the path. *)
Definition url_for (endpoint : string) (t : Task) : string :=
  if decide (endpoint = "task") then "/todo/api/v1.0/tasks/" +:+ pretty (id t)
  else if decide (endpoint = "tasks") then "/todo/api/v1.0/tasks"
  else "".

Definition field_of_name (key : string) : option field :=
  if decide (key = "title") then Some Title
  else if decide (key = "description") then Some Description
  else if decide (key = "done") then Some Done
  else None.

(** [get_value(key, task)] for the keys a formatter asks for.  The template
    below has no entry under [id], so the integer is only read by
    [url_for]. *)
Definition get_value (key : string) (t : Task) : pyval :=
  match field_of_name key with
  | Some k => getitem t k
  | None => PNone
  end.

(** [Raw.output]: a [None] value is emitted as the default [None]; anything
    else goes through the formatter, [str] for [fields.String] and [bool]
    for [fields.Boolean]. *)
Definition output (fld : fields) (key : string) (t : Task) : json :=
  match fld with
  | fields_Url endpoint => JStr (url_for endpoint t)
  | fields_String =>
    match get_value key t with
    | PNone => JNull
    | PBool b => JStr (if b then "True" else "False")
    | PStr s => JStr s
    end
  | fields_Boolean =>
    match get_value key t with
    | PNone => JNull
    | PBool b => JBool b
    | PStr s => JBool (negb (bool_decide (s = "")))
    end
  end.

Definition task_fields : list (string * fields) :=
  [ ("title", fields_String);
    ("description", fields_String);
    ("done", fields_Boolean);
    ("uri", fields_Url "task") ].

(** [marshal(task, template)]: an ordered dictionary with the template's
    keys. *)
Definition marshal (t : Task) (template : list (string * fields)) : json :=
  JObj ((λ p, (fst p, output (snd p) (fst p) t)) <$> template).

(** *** flask_httpauth.HTTPBasicAuth *)

(** The [Authorization: Basic] header, decoded: user name and password. *)
Definition authorization : Type := option (string * string).

Definition get_password (username : string) : option string :=
  if decide (username = "user1") then Some "password" else None.

Definition unauthorized : response :=
  (JObj [("message", JStr "Unauthorized access")], 403).

(** [s.isascii()].  A string stands for the UTF-8 bytes of the Python
    text, so the text is ASCII exactly when no byte has its top bit set. *)
Fixpoint isascii (s : string) : bool :=
  match s with
  | EmptyString => true
  | String (Ascii.Ascii _ _ _ _ _ _ _ b7) s' => negb b7 && isascii s'
  end.

(** [hmac.compare_digest(a, b)] on two [str]: the comparison raises
    [TypeError] unless both texts are ASCII. *)
Definition compare_digest (a b : string) : outcome bool :=
  if isascii a && isascii b then Ret (bool_decide (a = b)) else Abort 500.

(** [HTTPBasicAuth.authenticate] without a verify or hash callback: no
    header or no stored password fails the check; otherwise the two
    passwords go through [hmac.compare_digest]. *)
Definition authenticate (auth : authorization) (stored_password : option string)
  : outcome bool :=
  match auth, stored_password with
  | Some (_, client_password), Some stored =>
    compare_digest client_password stored
  | _, _ => Ret false
  end.

(** [auth.login_required]: the wrapped view runs only after the check.  An
    exception raised by the check is not caught. *)
Definition login_required (f : M response) (auth : authorization) : M response :=
  let password :=
    match auth with
    | Some (username, _) =>
      if decide (username = "") then None else get_password username
    | None => None
    end in
  ok ← lift (authenticate auth password);
  if ok : bool then f else mret unauthorized.

(** ** Python list and subscript operations on the store *)

(** [o] is the result of a subscript; a failed one raises. *)
Definition subscript {A} (o : option A) : M A :=
  match o with
  | Some a => mret a
  | None => raise
  end.

(** [[task for task in tasks if task['id'] == id]].  The elements are the
    dictionaries of [tasks] themselves, not copies; each is named here by
    its position in [tasks]. *)
Definition comprehension (i : Z) (l : list Task) : list nat :=
  filter (λ k, id <$> l !! k = Some i) (seq 0 (length l)).

(** The dictionary a reference stands for. *)
Definition deref (ref : nat) : M Task :=
  l ← get_tasks;
  subscript (l !! ref).

(** [task[k] = v] through a reference: the element of [tasks] changes. *)
Definition store_item (ref : nat) (k : field) (v : pyval) : M unit :=
  l ← get_tasks;
  set_tasks (alter (λ t, setitem t k v) ref l).

(** [tasks.append(task)] *)
Definition append (t : Task) : M unit :=
  l ← get_tasks;
  set_tasks (l ++ [t]).

(** [list.remove(x)]: drops the first element equal to [x];
    [ValueError] when there is none. *)
Fixpoint list_remove (x : Task) (l : list Task) : option (list Task) :=
  match l with
  | [] => None
  | y :: l' =>
    if decide (y = x) then Some l' else (y ::.) <$> list_remove x l'
  end.

Definition remove (x : Task) : M unit :=
  l ← get_tasks;
  l' ← subscript (list_remove x l);
  set_tasks l'.

(** [for k, v in args.items(): body] *)
Fixpoint for_items (ns : list (field * pyval)) (body : field → pyval → M unit)
  : M unit :=
  match ns with
  | [] => mret tt
  | (k, v) :: rest => body k v;; for_items rest body
  end.

(** ** The resources *)

(** The parser built in [TaskListAPI.__init__]. *)
Definition TaskListAPI_reqparse : list Argument :=
  [ mkArgument Title type_str true PNone;
    mkArgument Description type_str false (PStr "") ].

(** The parser built in [TaskAPI.__init__]. *)
Definition TaskAPI_reqparse : list Argument :=
  [ mkArgument Title type_str false PNone;
    mkArgument Description type_str false PNone;
    mkArgument Done type_bool false PNone ].

Definition TaskListAPI_get : M response :=
  l ← get_tasks;
  mret (JObj [("tasks", JArr ((λ task, marshal task task_fields) <$> l))], 200).

Definition TaskListAPI_post (body : gmap string json) : M response :=
  args ← lift (parse_args TaskListAPI_reqparse body);
  l ← get_tasks;
  new_id ← (if decide (0 < length l)%nat
            then last_task ← subscript (last l); mret (id last_task + 1)
            else mret 1);
  new_title ← subscript (namespace_get args Title);
  new_description ← subscript (namespace_get args Description);
  let task := mkTask new_id new_title new_description (PBool false) in
  append task;;
  mret (JObj [("task", marshal task task_fields)], 201).

Definition TaskAPI_get (i : Z) : M response :=
  l ← get_tasks;
  let task := comprehension i l in
  if decide (length task = 0%nat) then abort 404 else
  ref ← subscript (task !! 0%nat);
  t ← deref ref;
  mret (JObj [("task", marshal t task_fields)], 200).

Definition TaskAPI_put (i : Z) (body : gmap string json) : M response :=
  l ← get_tasks;
  let task := comprehension i l in
  if decide (length task = 0%nat) then abort 404 else
  ref ← subscript (task !! 0%nat);
  args ← lift (parse_args TaskAPI_reqparse body);
  for_items args (λ k v,
    if decide (v = PNone) then mret tt else store_item ref k v);;
  t ← deref ref;
  mret (JObj [("task", marshal t task_fields)], 200).

Definition TaskAPI_delete (i : Z) : M response :=
  l ← get_tasks;
  let task := comprehension i l in
  if decide (length task = 0%nat) then abort 404 else
  ref ← subscript (task !! 0%nat);
  t ← deref ref;
  remove t;;
  mret (JObj [("result", JBool true)], 200).

(** ** Requests *)

(** A request that the router has matched against one of the two rules
    registered with [api.add_resource]; [i] is the value of [<int:id>].
    The body of a create or update is the JSON object the request carries,
    decoded.  A request without a JSON content type, with text that is not
    JSON, or with a JSON document that is not an object is answered with an
    error raised while the body is read, before any argument is parsed; such
    requests are outside this model. *)
Inductive request :=
| GET_tasks
| POST_tasks (body : gmap string json)
| GET_task (i : Z)
| PUT_task (i : Z) (body : gmap string json)
| DELETE_task (i : Z).

Definition view (r : request) : M response :=
  match r with
  | GET_tasks => TaskListAPI_get
  | POST_tasks body => TaskListAPI_post body
  | GET_task i => TaskAPI_get i
  | PUT_task i body => TaskAPI_put i body
  | DELETE_task i => TaskAPI_delete i
  end.

(** Both resources carry [decorators = [auth.login_required]]. *)
Definition dispatch (auth : authorization) (r : request) : M response :=
  login_required (view r) auth.

(** The lists the running program can hold. *)
Inductive reachable : list Task → Prop :=
| reachable_init : reachable tasks
| reachable_step st auth r :
    reachable st → reachable (snd (dispatch auth r st)).

(** ** Vocabulary of the properties *)

(** The valid credentials. *)
Definition user1 : authorization := Some ("user1", "password").

(** The credentials on which the password comparison raises: the user
    name user1 with a password that is not ASCII. *)
Definition password_not_ascii (auth : authorization) : bool :=
  match auth with
  | Some (username, client_password) =>
    bool_decide (username = "user1") && negb (isascii client_password)
  | None => false
  end.

(** The ids of a list grow strictly from left to right. *)
Definition ids_increasing (l : list Task) : Prop :=
  StronglySorted Z.lt (id <$> l).

(** [m] is the greatest id in [l]. *)
Definition max_id (l : list Task) (m : Z) : Prop :=
  (∃ t, t ∈ l ∧ id t = m) ∧ ∀ t, t ∈ l → id t ≤ m.

(** The value [parse_args] stores for an optional argument. *)
Definition parsed (ty : pytype) (dflt : pyval) (o : option json) : pyval :=
  match o with
  | Some v => convert ty v
  | None => dflt
  end.

(** One round of the loop in [TaskAPI.put]. *)
Definition assign (t : Task) (kv : field * pyval) : Task :=
  if decide (snd kv = PNone) then t else setitem t (fst kv) (snd kv).

(** The task after the whole loop. *)
Definition patched (body : gmap string json) (t : Task) : Task :=
  foldl assign t
    [ (Title, parsed type_str PNone (body !! "title"));
      (Description, parsed type_str PNone (body !! "description"));
      (Done, parsed type_bool PNone (body !! "done")) ].

(** The id [TaskListAPI.post] computes. *)
Definition next_id (l : list Task) : Z :=
  match last l with
  | Some t => id t + 1
  | None => 1
  end.

(** The task [TaskListAPI.post] builds. *)
Definition created (body : gmap string json) (v : json) (l : list Task) : Task :=
  mkTask (next_id l) (convert type_str v)
    (parsed type_str (PStr "") (body !! "description")) (PBool false).

(** The requests the handlers turn down, with the status they answer:
    a create without [title], and a read, update or delete of an id that no
    task of the list carries. *)
Inductive refused (st : list Task) : request → Z → Prop :=
| refused_post body :
    body !! "title" = None → refused st (POST_tasks body) 400
| refused_get i :
    (∀ t, t ∈ st → id t ≠ i) → refused st (GET_task i) 404
| refused_put i body :
    (∀ t, t ∈ st → id t ≠ i) → refused st (PUT_task i body) 404
| refused_delete i :
    (∀ t, t ∈ st → id t ≠ i) → refused st (DELETE_task i) 404.

(** The keys of a JSON object, in order. *)
Definition json_keys (j : json) : list string :=
  match j with
  | JObj members => fst <$> members
  | _ => []
  end.

(** The member of a JSON object under a key. *)
Definition json_get (j : json) (key : string) : option json :=
  match j with
  | JObj members =>
    (λ hit, snd (snd hit)) <$> list_find (λ p, fst p = key) members
  | _ => None
  end.

(** The item-resource path of a task. *)
Definition task_uri (t : Task) : string :=
  "/todo/api/v1.0/tasks/" +:+ pretty (id t).

(** The status each request is answered with, read off the decorator and
    the handlers: the password comparison first, then the parser or the
    lookup. *)
Definition expected_status (auth : authorization) (r : request)
    (st : list Task) : Z :=
  if decide (auth = user1) then
    match r with
    | GET_tasks => 200
    | POST_tasks body => if decide (is_Some (body !! "title")) then 201 else 400
    | GET_task i | PUT_task i _ | DELETE_task i =>
      if decide (Exists (λ t, id t = i) st) then 200 else 404
    end
  else if password_not_ascii auth then 500
  else 403.

(** The types of the values a task holds under its three mutable keys. *)
Definition well_typed (t : Task) : Prop :=
  (title t = PNone ∨ ∃ s, title t = PStr s) ∧
  (description t = PNone ∨ ∃ s, description t = PStr s) ∧
  ∃ b, done t = PBool b.

(** The request does not update or delete the task with id [j]. *)
Definition spares (r : request) (j : Z) : Prop :=
  match r with
  | PUT_task i _ | DELETE_task i => i ≠ j
  | _ => True
  end.

(** The body gives no value for the key: it is missing or null. *)
Definition unset (body : gmap string json) (f : field) : Prop :=
  body !! field_name f = None ∨ body !! field_name f = Some JNull.

(** ** The comprehension and the first match *)

Lemma filter_seq_S (P : nat → Prop) `{!∀ k, Decision (P k)} (j n : nat) :
  filter P (seq (S j) n) = S <$> filter (λ k, P (S k)) (seq j n).
Proof.
  revert j. induction n as [|n IH]; intros j; [done|].
  cbn [seq]. rewrite !filter_cons, IH.
  destruct (decide (P (S j))); done.
Qed.

Lemma comprehension_cons (i : Z) (t : Task) (l : list Task) :
  comprehension i (t :: l) =
    if decide (id t = i) then 0%nat :: (S <$> comprehension i l)
    else S <$> comprehension i l.
Proof.
  unfold comprehension. cbn [length seq]. rewrite filter_cons.
  rewrite (filter_seq_S (λ k, id <$> (t :: l) !! k = Some i)).
  cbn. destruct (decide (Some (id t) = Some i)), (decide (id t = i));
    first [reflexivity | congruence].
Qed.

Lemma comprehension_head (i : Z) (l : list Task) :
  comprehension i l !! 0%nat = fst <$> list_find (λ t, id t = i) l.
Proof.
  induction l as [|t l IH]; [done|].
  rewrite comprehension_cons. cbn [list_find].
  destruct (decide (id t = i)); [done|].
  rewrite list_lookup_fmap, IH.
  destruct (list_find _ l) as [[k u]|]; done.
Qed.

Lemma comprehension_empty (i : Z) (l : list Task) :
  length (comprehension i l) = 0%nat ↔ list_find (λ t, id t = i) l = None.
Proof.
  pose proof (comprehension_head i l) as Hh. split.
  - intros Hl. destruct (comprehension i l); [|done].
    destruct (list_find _ l); done.
  - intros Hf. rewrite Hf in Hh. destruct (comprehension i l); done.
Qed.

(** [tasks.remove(task[0])] takes out the dictionary [task[0]] itself. *)
Lemma list_remove_first_match (i : Z) (l : list Task) (k : nat) (t : Task) :
  list_find (λ t, id t = i) l = Some (k, t) →
  list_remove t l = Some (delete k l).
Proof.
  revert k. induction l as [|y l IH]; intros k; [done|].
  cbn [list_find list_remove].
  destruct (decide (id y = i)) as [Hy|Hy].
  - intros [= <- <-]. by rewrite decide_True.
  - destruct (list_find _ l) as [[k' u]|] eqn:Hf; [|done].
    intros [= <- <-]. rewrite decide_False.
    + by rewrite (IH k').
    + intros ->. apply list_find_Some in Hf as (_ & ? & _). done.
Qed.

(** ** What each handler computes *)

Lemma TaskAPI_reqparse_run (body : gmap string json) :
  parse_args TaskAPI_reqparse body =
    Ret [ (Title, parsed type_str PNone (body !! "title"));
          (Description, parsed type_str PNone (body !! "description"));
          (Done, parsed type_bool PNone (body !! "done")) ].
Proof.
  unfold TaskAPI_reqparse, parse_args, parse, parsed. cbn.
  destruct (body !! "title"), (body !! "description"), (body !! "done"); done.
Qed.

Lemma TaskListAPI_reqparse_run (body : gmap string json) :
  parse_args TaskListAPI_reqparse body =
    match body !! "title" with
    | Some v =>
      Ret [ (Title, convert type_str v);
            (Description, parsed type_str (PStr "") (body !! "description")) ]
    | None => Abort 400
    end.
Proof.
  unfold TaskListAPI_reqparse, parse_args, parse, parsed. cbn.
  destruct (body !! "title"), (body !! "description"); done.
Qed.

Lemma for_items_run (ns : list (field * pyval)) (ref : nat) (st : list Task) :
  for_items ns (λ k v,
    if decide (v = PNone) then mret tt else store_item ref k v) st =
  (Ret tt, alter (λ t, foldl assign t ns) ref st).
Proof.
  revert st. induction ns as [|[k v] ns IH]; intros st.
  - cbn. by rewrite list_alter_id.
  - cbn [for_items foldl]. unfold mbind, M_bind.
    destruct (decide (v = PNone)) as [->|Hv].
    + cbn. rewrite IH. do 2 f_equal.
    + unfold store_item, get_tasks, set_tasks, mbind, M_bind.
      rewrite IH, list_alter_alter_eq. f_equal.
      apply list_alter_ext; [|done]. intros t _. cbn.
      f_equal. unfold assign. cbn. by rewrite decide_False.
Qed.

Lemma TaskListAPI_get_run (st : list Task) :
  TaskListAPI_get st =
    (Ret (JObj [("tasks", JArr ((λ t, marshal t task_fields) <$> st))], 200),
     st).
Proof. done. Qed.

(** Runs the monadic plumbing of a handler applied to a state. *)
Ltac run :=
  cbv beta iota delta
    [mbind M_bind mret M_ret get_tasks set_tasks abort raise lift subscript
     deref append remove store_item];
  cbn.

Lemma last_is_Some (l : list Task) :
  (0 < length l)%nat → is_Some (last l).
Proof.
  destruct l as [|t l] using rev_ind; [cbn; lia|].
  rewrite last_snoc. eauto.
Qed.

Lemma TaskListAPI_post_run (body : gmap string json) (st : list Task) :
  TaskListAPI_post body st =
    match body !! "title" with
    | Some v =>
      (Ret (JObj [("task", marshal (created body v st) task_fields)], 201),
       st ++ [created body v st])
    | None => (Abort 400, st)
    end.
Proof.
  unfold TaskListAPI_post, lift, mbind at 1, M_bind at 1.
  rewrite TaskListAPI_reqparse_run.
  destruct (body !! "title") as [v|]; [|done].
  unfold created, next_id. run.
  destruct (decide (0 < length st)%nat) as [Hlen|Hlen].
  - destruct (last_is_Some st Hlen) as [t Ht]. rewrite Ht. done.
  - destruct st; [done|]. cbn in Hlen. lia.
Qed.

Lemma TaskAPI_get_run (i : Z) (st : list Task) :
  TaskAPI_get i st =
    match list_find (λ t, id t = i) st with
    | Some (_, t) => (Ret (JObj [("task", marshal t task_fields)], 200), st)
    | None => (Abort 404, st)
    end.
Proof.
  unfold TaskAPI_get, get_tasks, mbind at 1, M_bind at 1.
  pose proof (comprehension_empty i st) as He.
  pose proof (comprehension_head i st) as Hh.
  destruct (list_find _ st) as [[k t]|] eqn:Hf.
  - rewrite decide_False by (rewrite He; done).
    apply list_find_Some in Hf as (Hk & _ & _).
    unfold mbind, M_bind, deref, get_tasks. rewrite Hh. cbn.
    unfold mbind, M_bind. rewrite Hk. done.
  - rewrite decide_True by (by apply He). done.
Qed.

Lemma TaskAPI_delete_run (i : Z) (st : list Task) :
  TaskAPI_delete i st =
    match list_find (λ t, id t = i) st with
    | Some (k, _) => (Ret (JObj [("result", JBool true)], 200), delete k st)
    | None => (Abort 404, st)
    end.
Proof.
  unfold TaskAPI_delete, get_tasks, mbind at 1, M_bind at 1.
  pose proof (comprehension_empty i st) as He.
  pose proof (comprehension_head i st) as Hh.
  destruct (list_find _ st) as [[k t]|] eqn:Hf.
  - rewrite decide_False by (rewrite He; done).
    pose proof (list_remove_first_match _ _ _ _ Hf) as Hr.
    apply list_find_Some in Hf as (Hk & _ & _).
    unfold mbind, M_bind, deref, remove, get_tasks. rewrite Hh. cbn.
    unfold mbind, M_bind. rewrite Hk. cbn. rewrite Hr. done.
  - rewrite decide_True by (by apply He). done.
Qed.

Lemma TaskAPI_put_run (i : Z) (body : gmap string json) (st : list Task) :
  TaskAPI_put i body st =
    match list_find (λ t, id t = i) st with
    | Some (k, t) =>
      (Ret (JObj [("task", marshal (patched body t) task_fields)], 200),
       <[k := patched body t]> st)
    | None => (Abort 404, st)
    end.
Proof.
  unfold TaskAPI_put, get_tasks, mbind at 1, M_bind at 1.
  pose proof (comprehension_empty i st) as He.
  pose proof (comprehension_head i st) as Hh.
  destruct (list_find _ st) as [[k t]|] eqn:Hf.
  - rewrite decide_False by (rewrite He; done).
    apply list_find_Some in Hf as (Hk & _ & _).
    unfold mbind at 1, M_bind at 1. rewrite Hh.
    cbn [fmap option_fmap option_map fst subscript mret M_ret].
    unfold lift, mbind at 1, M_bind at 1. rewrite TaskAPI_reqparse_run.
    unfold mbind at 1, M_bind at 1. rewrite for_items_run.
    unfold deref, get_tasks, mbind, M_bind.
    rewrite list_lookup_alter_eq, Hk. cbn.
    do 2 f_equal. unfold patched.
    rewrite list_insert_alter. apply list_alter_ext; [|done].
    intros t' Ht'. congruence.
  - rewrite decide_True by (by apply He). done.
Qed.

(** ** The login decorator *)

Lemma login_required_user1 (f : M response) (st : list Task) :
  login_required f user1 st = f st.
Proof. done. Qed.

Lemma login_required_raises (f : M response) (auth : authorization)
    (st : list Task) :
  password_not_ascii auth = true → login_required f auth st = (Abort 500, st).
Proof.
  unfold password_not_ascii.
  destruct auth as [[username client_password]|]; [|done].
  intros [->%bool_decide_eq_true Hp%negb_true_iff]%andb_true_iff.
  unfold login_required, authenticate, get_password, compare_digest. run.
  by rewrite Hp.
Qed.

Lemma login_required_refuses (f : M response) (auth : authorization)
    (st : list Task) :
  auth ≠ user1 → password_not_ascii auth = false →
  login_required f auth st = (Ret unauthorized, st).
Proof.
  intros Hne. unfold password_not_ascii.
  unfold login_required, authenticate, get_password, compare_digest.
  destruct auth as [[username client_password]|]; [|done].
  destruct (decide (username = "")); [done|].
  destruct (decide (username = "user1")) as [->|]; [|done].
  rewrite bool_decide_eq_true_2 by done. cbn [andb].
  intros ->%negb_false_iff. run.
  case_bool_decide as Hp; [|done]. by subst.
Qed.

(** Without the right credentials the view is not run: the answer is the
    403 of [unauthorized], or a 500 when the comparison raised. *)
Lemma dispatch_not_user1 (auth : authorization) (r : request)
    (st : list Task) :
  auth ≠ user1 →
  dispatch auth r st = (Ret unauthorized, st) ∨
  dispatch auth r st = (Abort 500, st).
Proof.
  intros Hne. unfold dispatch.
  destruct (password_not_ascii auth) eqn:Hp.
  - right. by apply login_required_raises.
  - left. by apply login_required_refuses.
Qed.

Lemma dispatch_user1 (r : request) (st : list Task) :
  dispatch user1 r st = view r st.
Proof. done. Qed.

(** ** Increasing ids *)

Lemma StronglySorted_delete {A} (R : relation A) (l : list A) (k : nat) :
  StronglySorted R l → StronglySorted R (delete k l).
Proof.
  intros Hl. revert k. induction Hl as [|x l Hl IH Hx]; intros [|k]; cbn.
  - constructor.
  - constructor.
  - done.
  - constructor; [apply IH|by apply Forall_delete].
Qed.

Lemma StronglySorted_lt_NoDup (l : list Z) :
  StronglySorted Z.lt l → NoDup l.
Proof.
  induction 1 as [|x l _ IH Hx]; constructor; [|done].
  intros Hin. rewrite Forall_forall in Hx. specialize (Hx x Hin). lia.
Qed.

Lemma ids_increasing_NoDup (l : list Task) :
  ids_increasing l → NoDup (id <$> l).
Proof. apply StronglySorted_lt_NoDup. Qed.

Lemma ids_increasing_last (l : list Task) (t u : Task) :
  ids_increasing l → last l = Some t → u ∈ l → id u ≤ id t.
Proof.
  intros Hl [l' ->]%last_Some Hu. unfold ids_increasing in Hl.
  rewrite fmap_app in Hl.
  apply elem_of_app in Hu as [Hu| ->%list_elem_of_singleton]; [|lia].
  apply Z.lt_le_incl.
  eapply (StronglySorted_app_1_elem_of _ _ _ _ _ Hl).
  - by apply list_elem_of_fmap_2.
  - cbn. by apply list_elem_of_singleton.
Qed.

Lemma next_id_above (l : list Task) (u : Task) :
  ids_increasing l → u ∈ l → id u < next_id l.
Proof.
  intros Hl Hu. unfold next_id.
  destruct (last l) as [t|] eqn:Ht.
  - pose proof (ids_increasing_last l t u Hl Ht Hu). lia.
  - apply last_None in Ht as ->. by apply elem_of_nil in Hu.
Qed.

Lemma ids_increasing_snoc (l : list Task) (t : Task) :
  ids_increasing l → id t = next_id l → ids_increasing (l ++ [t]).
Proof.
  intros Hl Ht. unfold ids_increasing. rewrite fmap_app.
  apply StronglySorted_app_2; [|done|repeat constructor].
  intros x1 x2 (u & -> & Hu)%list_elem_of_fmap_1 ->%list_elem_of_singleton.
  rewrite Ht. by apply next_id_above.
Qed.

Lemma ids_increasing_delete (l : list Task) (k : nat) :
  ids_increasing l → ids_increasing (delete k l).
Proof.
  unfold ids_increasing. rewrite list_fmap_delete.
  apply StronglySorted_delete.
Qed.

Lemma ids_increasing_insert (l : list Task) (k : nat) (t t' : Task) :
  l !! k = Some t → id t' = id t →
  ids_increasing l → ids_increasing (<[k := t']> l).
Proof.
  intros Hk Hid. unfold ids_increasing.
  rewrite list_fmap_insert, Hid, list_insert_id; [done|].
  by rewrite list_lookup_fmap, Hk.
Qed.

Lemma assign_id (t : Task) (kv : field * pyval) : id (assign t kv) = id t.
Proof. unfold assign. destruct kv as [[] v], (decide _); done. Qed.

Lemma patched_id (body : gmap string json) (t : Task) :
  id (patched body t) = id t.
Proof. unfold patched. cbn. by rewrite !assign_id. Qed.

(** With increasing ids the task at position [k] is the first, and only,
    task with its id. *)
Lemma ids_increasing_find (l : list Task) (k : nat) (t : Task) :
  ids_increasing l → l !! k = Some t →
  list_find (λ u, id u = id t) l = Some (k, t).
Proof.
  intros Hl%ids_increasing_NoDup Hk. apply list_find_Some.
  split_and!; [done..|]. intros j y Hj Hlt Hy.
  assert (j = k); [|lia].
  eapply (NoDup_lookup _ _ _ (id t) Hl);
    rewrite list_lookup_fmap; [rewrite Hj|rewrite Hk]; cbn; congruence.
Qed.

Lemma view_preserves_ids_increasing (r : request) (st : list Task) :
  ids_increasing st → ids_increasing (snd (view r st)).
Proof.
  intros Hst. destruct r as [|body|i|i body|i]; cbn [view].
  - done.
  - rewrite TaskListAPI_post_run. destruct (body !! "title"); [|done].
    by apply ids_increasing_snoc.
  - rewrite TaskAPI_get_run. by destruct (list_find _ st) as [[??]|].
  - rewrite TaskAPI_put_run.
    destruct (list_find _ st) as [[k t]|] eqn:Hf; [|done].
    apply list_find_Some in Hf as (Hk & _ & _).
    eapply ids_increasing_insert; eauto using patched_id.
  - rewrite TaskAPI_delete_run.
    destruct (list_find _ st) as [[k t]|]; [|done].
    by apply ids_increasing_delete.
Qed.

Lemma dispatch_preserves_ids_increasing (auth : authorization) (r : request)
    (st : list Task) :
  ids_increasing st → ids_increasing (snd (dispatch auth r st)).
Proof.
  intros Hst. destruct (decide (auth = user1)) as [->|Hne].
  - rewrite dispatch_user1. by apply view_preserves_ids_increasing.
  - by destruct (dispatch_not_user1 auth r st Hne) as [-> | ->].
Qed.

Lemma tasks_ids_increasing : ids_increasing tasks.
Proof. unfold ids_increasing. cbn. repeat constructor; lia. Qed.

Lemma reachable_ids_increasing (st : list Task) :
  reachable st → ids_increasing st.
Proof.
  induction 1 as [|st auth r _ IH].
  - apply tasks_ids_increasing.
  - by apply dispatch_preserves_ids_increasing.
Qed.

Lemma getitem_assign (t : Task) (k : field) (kv : field * pyval) :
  getitem (assign t kv) k =
    if decide (fst kv = k ∧ snd kv ≠ PNone) then snd kv else getitem t k.
Proof.
  unfold assign. destruct kv as [k' v]. cbn.
  destruct (decide (v = PNone)) as [->|Hv].
  - rewrite decide_False; [done|]. intros [_ ?]. done.
  - destruct k, k'; cbn;
      first [by rewrite decide_True
            | by rewrite decide_False by (intros [? _]; done)].
Qed.

(** How the loop of [TaskAPI.put] leaves each key of the task. *)
Lemma getitem_patched (body : gmap string json) (t : Task) (a : Argument) :
  a ∈ TaskAPI_reqparse →
  getitem (patched body t) (name a) =
    match body !! field_name (name a) with
    | None | Some JNull => getitem t (name a)
    | Some v => convert (type a) v
    end.
Proof.
  unfold TaskAPI_reqparse. rewrite !elem_of_cons, elem_of_nil.
  unfold patched. cbn [foldl]. rewrite !getitem_assign. cbn [fst snd].
  intros [->|[->|[->|[]]]]; cbn [name type field_name];
    repeat (rewrite (decide_False (P := _ ∧ _)) by (intros [? _]; done)).
  - destruct (body !! "title") as [[]|]; cbn; case_decide; intuition congruence.
  - destruct (body !! "description") as [[]|]; cbn; case_decide; intuition congruence.
  - destruct (body !! "done") as [[]|]; cbn; case_decide; intuition congruence.
Qed.

Lemma TaskAPI_reqparse_elem (f : field) :
  mkArgument f (match f with Done => type_bool | _ => type_str end) false PNone
    ∈ TaskAPI_reqparse.
Proof. unfold TaskAPI_reqparse. rewrite !elem_of_cons. destruct f; auto. Qed.

Lemma patched_title (body : gmap string json) (t : Task) :
  title (patched body t) =
    match body !! "title" with
    | None | Some JNull => title t
    | Some v => PStr (py_str v)
    end.
Proof.
  pose proof (getitem_patched body t _ (TaskAPI_reqparse_elem Title)) as Hg.
  cbn [name type field_name getitem] in Hg. rewrite Hg.
  by destruct (body !! "title") as [[]|].
Qed.

Lemma patched_description (body : gmap string json) (t : Task) :
  description (patched body t) =
    match body !! "description" with
    | None | Some JNull => description t
    | Some v => PStr (py_str v)
    end.
Proof.
  pose proof (getitem_patched body t _ (TaskAPI_reqparse_elem Description)) as Hg.
  cbn [name type field_name getitem] in Hg. rewrite Hg.
  by destruct (body !! "description") as [[]|].
Qed.

Lemma patched_done (body : gmap string json) (t : Task) :
  done (patched body t) =
    match body !! "done" with
    | None | Some JNull => done t
    | Some v => PBool (py_bool v)
    end.
Proof.
  pose proof (getitem_patched body t _ (TaskAPI_reqparse_elem Done)) as Hg.
  cbn [name type field_name getitem] in Hg. rewrite Hg.
  by destruct (body !! "done") as [[]|].
Qed.

Lemma ids_increasing_split (before after : list Task) (t : Task) :
  ids_increasing (before ++ t :: after) →
  Forall (λ u, id u ≠ id t) (before ++ after).
Proof.
  unfold ids_increasing. rewrite fmap_app, fmap_cons.
  intros (Hlt & _ & (Hgt & _)%StronglySorted_cons)%StronglySorted_app.
  rewrite Forall_forall in Hgt.
  apply Forall_app. split; apply Forall_forall; intros u Hu.
  - apply Z.lt_neq, Hlt; [by apply list_elem_of_fmap_2|left].
  - apply Z.neq_sym, Z.lt_neq, Hgt. by apply list_elem_of_fmap_2.
Qed.

(** ** Properties of the service *)

(** C10: the list the program starts with is not empty.  It holds exactly
    two tasks: id 1, "Buy groceries", "Milk, Cheese, Pizza, Fruit", not done;
    and id 2, "Learn Python", "Need to find a good Python tutorial on the
    web", not done.  A create on this fresh list therefore assigns id 3. *)
Theorem C10_initial_store (body : gmap string json) (v : json) :
  body !! "title" = Some v →
  tasks =
    [ mkTask 1 (PStr "Buy groceries") (PStr "Milk, Cheese, Pizza, Fruit")
        (PBool false);
      mkTask 2 (PStr "Learn Python")
        (PStr "Need to find a good Python tutorial on the web")
        (PBool false) ] ∧
  tasks ≠ [] ∧
  length tasks = 2%nat ∧
  ∃ task,
    dispatch user1 (POST_tasks body) tasks =
      (Ret (JObj [("task", marshal task task_fields)], 201), tasks ++ [task]) ∧
    id task = 3.
Proof.
  intros Hv. split_and!; [done..|].
  exists (created body v tasks).
  rewrite dispatch_user1. cbn [view]. rewrite TaskListAPI_post_run, Hv. done.
Qed.

(** C1: in every state of the store, a create that succeeds (status 201)
    gives the new task the greatest id present in the store plus one, or 1
    when the store is empty, puts the new task at the end of the list and
    returns it. *)
Theorem C1_post_assigns_max_id_plus_one (st st' : list Task)
    (auth : authorization) (body : gmap string json) (o : outcome response) :
  reachable st →
  dispatch auth (POST_tasks body) st = (o, st') →
  status_of o = 201 →
  ∃ task,
    st' = st ++ [task] ∧
    o = Ret (JObj [("task", marshal task task_fields)], 201) ∧
    ((st = [] ∧ id task = 1) ∨ (∃ m, max_id st m ∧ id task = m + 1)).
Proof.
  intros Hst%reachable_ids_increasing Hrun Hok.
  destruct (decide (auth = user1)) as [->|Hne].
  2: { destruct (dispatch_not_user1 auth (POST_tasks body) st Hne) as [H|H];
         rewrite H in Hrun; injection Hrun as <- <-; done. }
  rewrite dispatch_user1 in Hrun. cbn [view] in Hrun.
  rewrite TaskListAPI_post_run in Hrun.
  destruct (body !! "title") as [v|]; injection Hrun as <- <-; [|done].
  exists (created body v st). split_and!; [done..|].
  cbn [created id]. unfold next_id.
  destruct (last st) as [t|] eqn:Ht.
  - right. exists (id t). split; [|done]. split.
    + exists t. split; [|done]. by apply last_Some_elem_of.
    + intros u Hu. by eapply ids_increasing_last.
  - left. by apply last_None in Ht.
Qed.

(** C7: an authenticated create whose body has a string [title] and no
    [description] answers 201 with the serialized new task; the task has the
    empty string as description, is not done, and its id differs from every
    id in the store at that moment. *)
Theorem C7_post_defaults (st : list Task) (body : gmap string json)
    (s : string) :
  reachable st →
  body !! "title" = Some (JStr s) →
  body !! "description" = None →
  ∃ task,
    dispatch user1 (POST_tasks body) st =
      (Ret (JObj [("task", marshal task task_fields)], 201), st ++ [task]) ∧
    title task = PStr s ∧
    description task = PStr "" ∧
    done task = PBool false ∧
    ∀ t, t ∈ st → id t ≠ id task.
Proof.
  intros Hst%reachable_ids_increasing Ht Hd.
  exists (created body (JStr s) st).
  rewrite dispatch_user1. cbn [view]. rewrite TaskListAPI_post_run, Ht.
  split_and!; try done.
  - unfold created. by rewrite Hd.
  - intros t Hin. apply Z.lt_neq. by apply next_id_above.
Qed.

(** C9: in every state reachable from the initial list by list, create,
    read, update and delete requests the ids grow strictly along the list.
    Hence the ids are pairwise distinct, the last task carries the greatest
    id, so that last-id-plus-one is max-id-plus-one, and every request
    leaves a list with the same property. *)
Theorem C9_ids_strictly_increasing (st : list Task) :
  reachable st →
  StronglySorted Z.lt (id <$> st) ∧
  NoDup (id <$> st) ∧
  (∀ t, last st = Some t → max_id st (id t) ∧ next_id st = id t + 1) ∧
  ∀ auth r, StronglySorted Z.lt (id <$> snd (dispatch auth r st)).
Proof.
  intros Hst%reachable_ids_increasing. split_and!.
  - done.
  - by apply ids_increasing_NoDup.
  - intros t Ht. split; [split|].
    + exists t. split; [|done]. by apply last_Some_elem_of.
    + intros u Hu. by eapply ids_increasing_last.
    + unfold next_id. by rewrite Ht.
  - intros auth r. by apply dispatch_preserves_ids_increasing.
Qed.

(** C2: for every task in the store and every update request addressed to
    it, each of [title], [description] and [done] that the body carries with
    a value other than null is overwritten (with the value as the parser
    hands it over, which for a value of the declared type is the value
    itself); each key that is missing or null keeps its value, and so does
    the id; no other task changes; the updated task is returned. *)
Theorem C2_put_overwrites_present_fields (st : list Task) (k : nat)
    (t : Task) (body : gmap string json) :
  reachable st →
  st !! k = Some t →
  ∃ t',
    dispatch user1 (PUT_task (id t) body) st =
      (Ret (JObj [("task", marshal t' task_fields)], 200), <[k := t']> st) ∧
    id t' = id t ∧
    (∀ f, ∃ a, a ∈ TaskAPI_reqparse ∧ name a = f ∧
       getitem t' f =
         match body !! field_name f with
         | None | Some JNull => getitem t f
         | Some v => convert (type a) v
         end) ∧
    (∀ s, body !! "title" = Some (JStr s) → title t' = PStr s) ∧
    (∀ s, body !! "description" = Some (JStr s) → description t' = PStr s) ∧
    (∀ b, body !! "done" = Some (JBool b) → done t' = PBool b).
Proof.
  intros Hst%reachable_ids_increasing Hk.
  exists (patched body t).
  rewrite dispatch_user1. cbn [view].
  rewrite TaskAPI_put_run, (ids_increasing_find st k t Hst Hk).
  split_and!; [done|apply patched_id|..].
  - intros f.
    exists (mkArgument f (match f with Done => type_bool | _ => type_str end)
              false PNone).
    split_and!; [apply TaskAPI_reqparse_elem|done|].
    apply (getitem_patched body t _ (TaskAPI_reqparse_elem f)).
  - intros s Hb. by rewrite patched_title, Hb.
  - intros s Hb. by rewrite patched_description, Hb.
  - intros b Hb. by rewrite patched_done, Hb.
Qed.

(** X18: credentials that the password comparison accepts as text and
    that are not exactly user1 / password are answered, on each of the five
    endpoints, with status 403 and the body {message: "Unauthorized
    access"}; this covers a missing header, any other user name, and any
    ASCII password.  The answer comes from the decorator: the view is not
    run, whatever it is, and the store is unchanged. *)
Theorem X18_bad_credentials_are_refused (auth : authorization) (r : request)
    (st : list Task) :
  auth ≠ Some ("user1", "password") →
  password_not_ascii auth = false →
  dispatch auth r st =
    (Ret (JObj [("message", JStr "Unauthorized access")], 403), st) ∧
  ∀ f : M response,
    login_required f auth st =
      (Ret (JObj [("message", JStr "Unauthorized access")], 403), st).
Proof.
  intros Hne Hp. split; [unfold dispatch|intros f];
    by rewrite login_required_refuses.
Qed.

Lemma list_find_absent (st : list Task) (i : Z) :
  (∀ t, t ∈ st → id t ≠ i) → list_find (λ t, id t = i) st = None.
Proof. intros Hno. by apply list_find_None, Forall_forall. Qed.

Lemma failing_request_keeps_store (auth : authorization) (r : request)
    (st : list Task) :
  status_of (fst (dispatch auth r st)) ≠ 200 →
  status_of (fst (dispatch auth r st)) ≠ 201 →
  snd (dispatch auth r st) = st.
Proof.
  destruct (decide (auth = user1)) as [->|Hne].
  2: { by destruct (dispatch_not_user1 auth r st Hne) as [-> | ->]. }
  rewrite dispatch_user1.
  destruct r as [|body|i|i body|i]; cbn [view].
  - done.
  - rewrite TaskListAPI_post_run. by destruct (body !! "title").
  - rewrite TaskAPI_get_run. by destruct (list_find _ st) as [[??]|].
  - rewrite TaskAPI_put_run. by destruct (list_find _ st) as [[??]|].
  - rewrite TaskAPI_delete_run. by destruct (list_find _ st) as [[??]|].
Qed.

(** C5: a request that fails leaves the store as it was.  A create whose
    body has no [title] answers 400, and a read, update or delete of an id
    that no task carries answers 404; in both cases the list is the same
    afterwards.  More generally the list is unchanged after every request
    that answers neither 200 nor 201. *)
Theorem C5_failing_requests_keep_store (st : list Task) (r : request)
    (code : Z) :
  refused st r code →
  dispatch user1 r st = (Abort code, st) ∧
  (∀ auth, snd (dispatch auth r st) = st) ∧
  ∀ auth' r',
    status_of (fst (dispatch auth' r' st)) ≠ 200 →
    status_of (fst (dispatch auth' r' st)) ≠ 201 →
    snd (dispatch auth' r' st) = st.
Proof.
  intros Href.
  assert (Hrun : dispatch user1 r st = (Abort code, st)).
  { rewrite dispatch_user1.
    destruct Href as [body Hb|i Hi|i body Hi|i Hi]; cbn [view].
    - by rewrite TaskListAPI_post_run, Hb.
    - by rewrite TaskAPI_get_run, list_find_absent.
    - by rewrite TaskAPI_put_run, list_find_absent.
    - by rewrite TaskAPI_delete_run, list_find_absent. }
  split_and!; [done| |intros auth' r'; apply failing_request_keeps_store].
  intros auth. destruct (decide (auth = user1)) as [->|Hne].
  - by rewrite Hrun.
  - by destruct (dispatch_not_user1 auth r st Hne) as [-> | ->].
Qed.

(** C6: when the store holds a task with the given id, a delete of that id
    takes out exactly that one record and keeps the other tasks in their
    order, so the list is one shorter; it answers {result: true} with
    status 200, and a read of the same id afterwards answers 404. *)
Theorem C6_delete_removes_one (st : list Task) (i : Z) :
  reachable st →
  (∃ t, t ∈ st ∧ id t = i) →
  ∃ before t after,
    st = before ++ t :: after ∧
    id t = i ∧
    dispatch user1 (DELETE_task i) st =
      (Ret (JObj [("result", JBool true)], 200), before ++ after) ∧
    (∀ u, u ∈ before ++ after → id u ≠ i) ∧
    S (length (before ++ after)) = length st ∧
    dispatch user1 (GET_task i) (before ++ after) =
      (Abort 404, before ++ after).
Proof.
  intros Hst%reachable_ids_increasing (t & [k Hk]%list_elem_of_lookup_1 & <-).
  pose proof (ids_increasing_find st k t Hst Hk) as Hf.
  pose proof (take_drop_middle st k t Hk) as Hsplit.
  exists (take k st), t, (drop (S k) st).
  rewrite <- Hsplit in Hst. apply ids_increasing_split in Hst.
  rewrite Forall_forall in Hst.
  split_and!; [done|done| |done| |].
  - rewrite dispatch_user1. cbn [view].
    by rewrite TaskAPI_delete_run, Hf, delete_take_drop.
  - rewrite <- Hsplit at 3. rewrite !length_app. cbn. lia.
  - rewrite dispatch_user1. cbn [view].
    by rewrite TaskAPI_get_run, list_find_absent.
Qed.

(** C8: the external form of a task has exactly the keys [title],
    [description], [done] and [uri]; the key [id] is not among them, and
    [uri] is the path /todo/api/v1.0/tasks/ followed by the task's id.
    Every task in the answer of a list, create, read or update request is
    in this form: a list answers with the external forms of all tasks of
    the store, the other three with the external form of one task. *)
Theorem C8_external_representation (auth : authorization) (r : request)
    (st st' : list Task) (body : json) (code : Z) :
  dispatch auth r st = (Ret (body, code), st') →
  code ≠ 403 →
  (∀ t,
     marshal t task_fields =
       JObj [ ("title", output fields_String "title" t);
              ("description", output fields_String "description" t);
              ("done", output fields_Boolean "done" t);
              ("uri", JStr (task_uri t)) ] ∧
     json_keys (marshal t task_fields) =
       ["title"; "description"; "done"; "uri"] ∧
     ("id" ∉ json_keys (marshal t task_fields)) ∧
     json_get (marshal t task_fields) "uri" = Some (JStr (task_uri t))) ∧
  match r with
  | GET_tasks =>
    body = JObj [("tasks", JArr ((λ t, marshal t task_fields) <$> st'))]
  | POST_tasks _ | GET_task _ | PUT_task _ _ =>
    ∃ t, t ∈ st' ∧ body = JObj [("task", marshal t task_fields)]
  | DELETE_task _ => body = JObj [("result", JBool true)]
  end.
Proof.
  intros Hrun Hcode. split.
  { intros t. split_and!; [done..| |done].
    cbn. rewrite !elem_of_cons, elem_of_nil. intuition discriminate. }
  destruct (decide (auth = user1)) as [->|Hne].
  2: { destruct (dispatch_not_user1 auth r st Hne) as [H|H];
         rewrite H in Hrun; [injection Hrun as <- <- <-|]; done. }
  rewrite dispatch_user1 in Hrun.
  destruct r as [|b|i|i b|i]; cbn [view] in Hrun.
  - rewrite TaskListAPI_get_run in Hrun. by injection Hrun as <- <- <-.
  - rewrite TaskListAPI_post_run in Hrun.
    destruct (b !! "title") as [v|]; [|done]. injection Hrun as <- <- <-.
    exists (created b v st). split; [|done].
    apply elem_of_app. right. by apply list_elem_of_singleton.
  - rewrite TaskAPI_get_run in Hrun.
    destruct (list_find _ st) as [[k t]|] eqn:Hf; [|done].
    injection Hrun as <- <- <-.
    apply list_find_Some in Hf as (Hk & _ & _).
    exists t. split; [|done]. by eapply list_elem_of_lookup_2.
  - rewrite TaskAPI_put_run in Hrun.
    destruct (list_find _ st) as [[k t]|] eqn:Hf; [|done].
    injection Hrun as <- <- <-.
    apply list_find_Some in Hf as (Hk%lookup_lt_Some & _ & _).
    exists (patched b t). split; [|done].
    eapply list_elem_of_lookup_2. by apply list_lookup_insert_eq.
  - rewrite TaskAPI_delete_run in Hrun.
    destruct (list_find _ st) as [[k t]|]; [|done].
    by injection Hrun as <- <- <-.
Qed.

(** ** Further properties: statuses, store effects, compositions *)

Lemma list_find_present (st : list Task) (i : Z) :
  Exists (λ t, id t = i) st ↔ is_Some (list_find (λ t, id t = i) st).
Proof.
  rewrite Exists_exists. split.
  - intros (t & Hin & Ht). by eapply list_find_elem_of.
  - intros [[k t] (Hk & Ht & _)%list_find_Some].
    exists t. split; [by eapply list_elem_of_lookup_2|done].
Qed.

(** X1: the status of every answer to a routed request whose body, if it
    has one, is a JSON object.  With the user name user1 and a password
    that is not ASCII the password comparison raises and the answer is 500;
    any other credentials that are not user1 / password give 403.  With
    the right credentials a list gives 200, a create 201 when the body has
    a [title] key and 400 when it has none, and a read, update or delete
    200 when a task carries the id and 404 when none does. *)
Theorem X1_status_of_every_request (auth : authorization) (r : request)
    (st : list Task) :
  status_of (fst (dispatch auth r st)) = expected_status auth r st.
Proof.
  unfold expected_status.
  destruct (decide (auth = user1)) as [->|Hne].
  2: { unfold dispatch. destruct (password_not_ascii auth) eqn:Hp.
       - by rewrite login_required_raises.
       - by rewrite login_required_refuses. }
  rewrite dispatch_user1. destruct r as [|body|i|i body|i]; cbn [view].
  - done.
  - rewrite TaskListAPI_post_run.
    destruct (body !! "title") as [v|] eqn:Hb.
    + by rewrite decide_True by eauto.
    + by rewrite decide_False by (by intros [? ?]).
  - rewrite TaskAPI_get_run. pose proof (list_find_present st i) as Hp.
    destruct (list_find _ st) as [[k t]|].
    + by rewrite decide_True by (apply Hp; eauto).
    + by rewrite decide_False by (intros [? ?]%Hp; done).
  - rewrite TaskAPI_put_run. pose proof (list_find_present st i) as Hp.
    destruct (list_find _ st) as [[k t]|].
    + by rewrite decide_True by (apply Hp; eauto).
    + by rewrite decide_False by (intros [? ?]%Hp; done).
  - rewrite TaskAPI_delete_run. pose proof (list_find_present st i) as Hp.
    destruct (list_find _ st) as [[k t]|].
    + by rewrite decide_True by (apply Hp; eauto).
    + by rewrite decide_False by (intros [? ?]%Hp; done).
Qed.

(** X2: how the length of the list changes.  A create answered 201 makes
    it one longer, a delete answered 200 one shorter; after every other
    answer the length is the same. *)
Theorem X2_length_of_the_store (auth : authorization) (r : request)
    (st : list Task) :
  length (snd (dispatch auth r st)) =
    match r with
    | POST_tasks _ =>
      if decide (status_of (fst (dispatch auth r st)) = 201)
      then S (length st) else length st
    | DELETE_task _ =>
      if decide (status_of (fst (dispatch auth r st)) = 200)
      then pred (length st) else length st
    | _ => length st
    end.
Proof.
  destruct (decide (auth = user1)) as [->|Hne].
  2: { destruct (dispatch_not_user1 auth r st Hne) as [-> | ->];
         by destruct r. }
  rewrite dispatch_user1. destruct r as [|body|i|i body|i]; cbn [view].
  - done.
  - rewrite TaskListAPI_post_run. destruct (body !! "title"); [|done].
    cbn [fst snd status_of]. rewrite decide_True by done.
    rewrite length_app. cbn. lia.
  - rewrite TaskAPI_get_run. by destruct (list_find _ st) as [[??]|].
  - rewrite TaskAPI_put_run. destruct (list_find _ st) as [[??]|]; [|done].
    cbn. by rewrite length_insert.
  - rewrite TaskAPI_delete_run.
    destruct (list_find _ st) as [[k t]|] eqn:Hf; [|done].
    apply list_find_Some in Hf as (Hk & _ & _).
    cbn [fst snd status_of]. rewrite decide_True by done.
    rewrite length_delete by eauto. lia.
Qed.

(** X3: an update can change neither an id nor the order of the tasks:
    the ids of the list are the same, in the same order, after any update
    request, whatever its body. *)
Theorem X3_put_keeps_ids (auth : authorization) (i : Z)
    (body : gmap string json) (st : list Task) :
  id <$> snd (dispatch auth (PUT_task i body) st) = id <$> st.
Proof.
  destruct (decide (auth = user1)) as [->|Hne].
  2: { by destruct (dispatch_not_user1 auth (PUT_task i body) st Hne)
         as [-> | ->]. }
  rewrite dispatch_user1. cbn [view]. rewrite TaskAPI_put_run.
  destruct (list_find _ st) as [[k t]|] eqn:Hf; [|done].
  apply list_find_Some in Hf as (Hk & _ & _). cbn [snd].
  rewrite list_fmap_insert, patched_id, list_insert_id; [done|].
  by rewrite list_lookup_fmap, Hk.
Qed.

Lemma list_find_insert_same (st : list Task) (i : Z) (k : nat) (t t' : Task) :
  list_find (λ u, id u = i) st = Some (k, t) → id t' = i →
  list_find (λ u, id u = i) (<[k := t']> st) = Some (k, t').
Proof.
  intros (Hk & _ & Hbefore)%list_find_Some Hid. apply list_find_Some.
  split_and!; [|done|].
  - apply list_lookup_insert_eq. by eapply lookup_lt_Some.
  - intros j y Hj Hlt. rewrite list_lookup_insert_ne in Hj by lia.
    by eapply Hbefore.
Qed.

Lemma Task_ext (t u : Task) :
  id t = id u → (∀ f, getitem t f = getitem u f) → t = u.
Proof.
  destruct t, u. cbn. intros -> Hf.
  pose proof (Hf Title). pose proof (Hf Description). pose proof (Hf Done).
  cbn in *. congruence.
Qed.

Lemma patched_patched (body : gmap string json) (t : Task) :
  patched body (patched body t) = patched body t.
Proof.
  apply Task_ext; [by rewrite !patched_id|]. intros []; cbn [getitem].
  - rewrite (patched_title body (patched body t)), (patched_title body t).
    by destruct (body !! "title") as [[]|].
  - rewrite (patched_description body (patched body t)),
      (patched_description body t).
    by destruct (body !! "description") as [[]|].
  - rewrite (patched_done body (patched body t)), (patched_done body t).
    by destruct (body !! "done") as [[]|].
Qed.

(** X4: an update is idempotent.  Sending the same update a second time
    gives the same answer as the first time and leaves the list as the first
    one left it. *)
Theorem X4_put_idempotent (auth : authorization) (i : Z)
    (body : gmap string json) (st : list Task) :
  dispatch auth (PUT_task i body) (snd (dispatch auth (PUT_task i body) st)) =
    dispatch auth (PUT_task i body) st.
Proof.
  destruct (decide (auth = user1)) as [->|Hne].
  2: { destruct (dispatch_not_user1 auth (PUT_task i body) st Hne) as [H|H];
         rewrite H; cbn [snd]; by rewrite H. }
  rewrite (dispatch_user1 _ st). cbn [view].
  rewrite (TaskAPI_put_run i body st).
  destruct (list_find (λ t, id t = i) st) as [[k t]|] eqn:Hf; cbn [snd];
    rewrite dispatch_user1; cbn [view]; rewrite TaskAPI_put_run.
  - rewrite (list_find_insert_same st i k t (patched body t) Hf).
    + by rewrite patched_patched, list_insert_insert_eq.
    + rewrite patched_id. by apply list_find_Some in Hf as (_ & ? & _).
  - by rewrite Hf.
Qed.

(** X5: what an update wrote is what a read returns.  A read of the same
    id right after an update has the answer of the update: the same body
    with status 200, or 404 when the update found no task. *)
Theorem X5_get_after_put (i : Z) (body : gmap string json) (st : list Task) :
  fst (dispatch user1 (GET_task i)
         (snd (dispatch user1 (PUT_task i body) st))) =
    fst (dispatch user1 (PUT_task i body) st).
Proof.
  rewrite (dispatch_user1 _ st). cbn [view].
  rewrite (TaskAPI_put_run i body st).
  destruct (list_find (λ t, id t = i) st) as [[k t]|] eqn:Hf; cbn [snd];
    rewrite dispatch_user1; cbn [view]; rewrite TaskAPI_get_run.
  - rewrite (list_find_insert_same st i k t (patched body t) Hf); [done|].
    rewrite patched_id. by apply list_find_Some in Hf as (_ & ? & _).
  - by rewrite Hf.
Qed.

(** X6: an update that sets nothing is a read.  When each of [title],
    [description] and [done] is missing from the body or null, the update
    gives the answer of a read of the same id and the list is unchanged. *)
Theorem X6_put_without_values_is_get (i : Z) (body : gmap string json)
    (st : list Task) :
  (∀ f, body !! field_name f = None ∨ body !! field_name f = Some JNull) →
  dispatch user1 (PUT_task i body) st = dispatch user1 (GET_task i) st.
Proof.
  intros Hb.
  rewrite (dispatch_user1 (PUT_task i body)), (dispatch_user1 (GET_task i)).
  cbn [view].
  rewrite TaskAPI_put_run, TaskAPI_get_run.
  destruct (list_find _ st) as [[k t]|] eqn:Hf; [|done].
  assert (Hsame : patched body t = t).
  { apply Task_ext; [apply patched_id|]. intros f.
    pose proof (Hb f) as Hbf.
    destruct f; cbn [field_name getitem] in Hbf |- *;
      rewrite ?patched_title, ?patched_description, ?patched_done;
      by destruct Hbf as [-> | ->]. }
  rewrite Hsame. apply list_find_Some in Hf as (Hk & _ & _).
  by rewrite list_insert_id.
Qed.

Lemma list_find_snoc_new (st : list Task) (t : Task) :
  (∀ u, u ∈ st → id u ≠ id t) →
  list_find (λ u, id u = id t) (st ++ [t]) = Some (length st, t).
Proof.
  intros Hnew. apply list_find_Some. split_and!; [|done|].
  - by apply list_lookup_middle.
  - intros j y Hj Hlt. rewrite lookup_app_l in Hj by done.
    apply Hnew. by eapply list_elem_of_lookup_2.
Qed.

Lemma delete_snoc (l : list Task) (t : Task) :
  delete (length l) (l ++ [t]) = l.
Proof. induction l as [|u l IH]; [done|]. cbn. by f_equal. Qed.

Lemma created_is_new (body : gmap string json) (v : json) (st : list Task) :
  ids_increasing st → ∀ u, u ∈ st → id u ≠ id (created body v st).
Proof. intros Hst u Hu. apply Z.lt_neq. by apply next_id_above. Qed.

(** X7: a created task can be read back.  After a create that succeeds, a
    read of the new task's id answers 200 with the very representation the
    create returned. *)
Theorem X7_get_after_post (st : list Task) (body : gmap string json)
    (v : json) :
  reachable st →
  body !! "title" = Some v →
  ∃ task e,
    dispatch user1 (POST_tasks body) st =
      (Ret (JObj [("task", e)], 201), st ++ [task]) ∧
    dispatch user1 (GET_task (id task)) (st ++ [task]) =
      (Ret (JObj [("task", e)], 200), st ++ [task]).
Proof.
  intros Hst%reachable_ids_increasing Hb.
  exists (created body v st), (marshal (created body v st) task_fields).
  rewrite (dispatch_user1 (POST_tasks body)), (dispatch_user1 (GET_task _)).
  cbn [view]. rewrite TaskListAPI_post_run, Hb, TaskAPI_get_run.
  by rewrite list_find_snoc_new by (by apply created_is_new).
Qed.

(** X8: deleting the task just created undoes the create: the list is
    again what it was before the two requests. *)
Theorem X8_delete_after_post (st : list Task) (body : gmap string json)
    (v : json) :
  reachable st →
  body !! "title" = Some v →
  ∃ task,
    snd (dispatch user1 (POST_tasks body) st) = st ++ [task] ∧
    dispatch user1 (DELETE_task (id task)) (st ++ [task]) =
      (Ret (JObj [("result", JBool true)], 200), st).
Proof.
  intros Hst%reachable_ids_increasing Hb.
  exists (created body v st).
  rewrite (dispatch_user1 (POST_tasks body)), (dispatch_user1 (DELETE_task _)).
  cbn [view]. rewrite TaskListAPI_post_run, Hb, TaskAPI_delete_run.
  rewrite list_find_snoc_new by (by apply created_is_new).
  by rewrite delete_snoc.
Qed.

(** X9: ids are handed out again.  When a task is created, deleted, and
    another task is created, the second task gets the id (and so the uri)
    the first one had, whatever the two bodies are. *)
Theorem X9_id_reused_after_delete (st : list Task)
    (body1 body2 : gmap string json) (v1 v2 : json) :
  reachable st →
  body1 !! "title" = Some v1 →
  body2 !! "title" = Some v2 →
  ∃ task1 task2 st1 st2 st3,
    dispatch user1 (POST_tasks body1) st =
      (Ret (JObj [("task", marshal task1 task_fields)], 201), st1) ∧
    dispatch user1 (DELETE_task (id task1)) st1 =
      (Ret (JObj [("result", JBool true)], 200), st2) ∧
    dispatch user1 (POST_tasks body2) st2 =
      (Ret (JObj [("task", marshal task2 task_fields)], 201), st3) ∧
    task1 ∈ st1 ∧ task2 ∈ st3 ∧
    id task2 = id task1 ∧
    json_get (marshal task2 task_fields) "uri" =
      json_get (marshal task1 task_fields) "uri".
Proof.
  intros Hst%reachable_ids_increasing Hb1 Hb2.
  exists (created body1 v1 st), (created body2 v2 st),
    (st ++ [created body1 v1 st]), st, (st ++ [created body2 v2 st]).
  rewrite (dispatch_user1 (POST_tasks body1)),
    (dispatch_user1 (POST_tasks body2)), (dispatch_user1 (DELETE_task _)).
  cbn [view].
  rewrite (TaskListAPI_post_run body1), (TaskListAPI_post_run body2).
  rewrite Hb1, Hb2, TaskAPI_delete_run.
  rewrite list_find_snoc_new by (by apply created_is_new).
  rewrite delete_snoc.
  split_and!; try done;
    apply elem_of_app; right; by apply list_elem_of_singleton.
Qed.

Lemma well_typed_created (body : gmap string json) (v : json)
    (st : list Task) :
  well_typed (created body v st).
Proof.
  unfold well_typed, created, parsed. cbn. split_and!.
  - destruct v; eauto.
  - destruct (body !! "description") as [[]|]; cbn; eauto.
  - eauto.
Qed.

Lemma well_typed_patched (body : gmap string json) (t : Task) :
  well_typed t → well_typed (patched body t).
Proof.
  intros (Ht & Hd & Hb). unfold well_typed.
  rewrite patched_title, patched_description, patched_done. split_and!.
  - destruct (body !! "title") as [[]|]; eauto.
  - destruct (body !! "description") as [[]|]; eauto.
  - destruct (body !! "done") as [[]|]; eauto.
Qed.

Lemma dispatch_preserves_Forall (P : Task → Prop) (auth : authorization)
    (r : request) (st : list Task) :
  (∀ body v, Forall P st → P (created body v st)) →
  (∀ body t, P t → P (patched body t)) →
  Forall P st → Forall P (snd (dispatch auth r st)).
Proof.
  intros Hc Hp Hst. destruct (decide (auth = user1)) as [->|Hne].
  2: { by destruct (dispatch_not_user1 auth r st Hne) as [-> | ->]. }
  rewrite dispatch_user1. destruct r as [|body|i|i body|i]; cbn [view].
  - done.
  - rewrite TaskListAPI_post_run. destruct (body !! "title"); [|done].
    apply Forall_app. split; [done|]. constructor; [by apply Hc|constructor].
  - rewrite TaskAPI_get_run. by destruct (list_find _ st) as [[??]|].
  - rewrite TaskAPI_put_run.
    destruct (list_find _ st) as [[k t]|] eqn:Hf; [|done].
    apply list_find_Some in Hf as (Hk & _ & _).
    apply Forall_insert; [done|]. apply Hp. by eapply Forall_lookup_1.
  - rewrite TaskAPI_delete_run.
    destruct (list_find _ st) as [[k t]|]; [|done]. by apply Forall_delete.
Qed.

(** X10: the values in the store keep their types.  In every reachable
    state each task's [title] and [description] are a string or [None] and
    its [done] is a boolean, so the external form carries a JSON string or
    null under [title] and [description] and a JSON boolean under [done]. *)
Theorem X10_fields_keep_their_types (st : list Task) (t : Task) :
  reachable st →
  t ∈ st →
  well_typed t ∧
  (output fields_String "title" t = JNull ∨
   ∃ s, output fields_String "title" t = JStr s) ∧
  (output fields_String "description" t = JNull ∨
   ∃ s, output fields_String "description" t = JStr s) ∧
  ∃ b, output fields_Boolean "done" t = JBool b.
Proof.
  intros Hst.
  assert (Hall : Forall well_typed st).
  { induction Hst as [|st auth r _ IH].
    - apply Forall_forall. intros u Hu. unfold tasks in Hu.
      rewrite !elem_of_cons, elem_of_nil in Hu.
      destruct Hu as [->|[->|[]]]; unfold well_typed; cbn; eauto 10.
    - apply dispatch_preserves_Forall; [|apply well_typed_patched|done].
      intros. apply well_typed_created. }
  intros Hin. rewrite Forall_forall in Hall. specialize (Hall t Hin).
  split; [done|]. destruct Hall as (Ht & Hd & [b Hb]).
  unfold output.
  change (get_value "title" t) with (title t).
  change (get_value "description" t) with (description t).
  change (get_value "done" t) with (done t).
  rewrite Hb. split_and!; [| |eauto].
  - destruct Ht as [->|[s ->]]; eauto.
  - destruct Hd as [->|[s ->]]; eauto.
Qed.

Lemma next_id_positive (st : list Task) :
  Forall (λ t, 1 ≤ id t) st → 1 ≤ next_id st.
Proof.
  intros Hst. unfold next_id. destruct (last st) as [t|] eqn:Ht; [|done].
  apply last_Some_elem_of in Ht. rewrite Forall_forall in Hst.
  specialize (Hst t Ht). lia.
Qed.

(** X11: every id in a reachable store is a positive integer, so every
    task can be addressed through the [<int:id>] segment of the item
    route. *)
Theorem X11_ids_are_positive (st : list Task) (t : Task) :
  reachable st →
  t ∈ st →
  1 ≤ id t.
Proof.
  intros Hst.
  assert (Hall : Forall (λ t, 1 ≤ id t) st).
  { induction Hst as [|st auth r _ IH].
    - unfold tasks. repeat constructor; cbn; lia.
    - apply dispatch_preserves_Forall; [| |done].
      + intros body v Hpos. cbn. by apply next_id_positive.
      + intros body u Hu. by rewrite patched_id. }
  rewrite Forall_forall in Hall. apply Hall.
Qed.

Lemma list_find_insert_other (l : list Task) (k : nat) (t t' : Task) (j : Z) :
  l !! k = Some t → id t ≠ j → id t' ≠ j →
  list_find (λ u, id u = j) (<[k := t']> l) = list_find (λ u, id u = j) l.
Proof.
  revert k. induction l as [|x l IH]; intros [|k] Hk Ht Ht'; try done.
  - cbn in Hk. injection Hk as ->.
    change (<[0%nat:=t']> (t :: l)) with (t' :: l). cbn [list_find].
    by rewrite !decide_False by done.
  - cbn in Hk. change (<[S k:=t']> (x :: l)) with (x :: <[k:=t']> l).
    cbn [list_find]. destruct (decide (id x = j)); [done|].
    by rewrite (IH k).
Qed.

Lemma list_find_delete_other (l : list Task) (k : nat) (t : Task) (j : Z) :
  l !! k = Some t → id t ≠ j →
  snd <$> list_find (λ u, id u = j) (delete k l) =
    snd <$> list_find (λ u, id u = j) l.
Proof.
  revert k. induction l as [|x l IH]; intros [|k] Hk Ht; try done.
  - cbn in Hk. injection Hk as ->.
    change (delete 0%nat (t :: l)) with l. cbn [list_find].
    rewrite decide_False by done. by destruct (list_find _ l) as [[??]|].
  - cbn in Hk. change (delete (S k) (x :: l)) with (x :: delete k l).
    cbn [list_find]. destruct (decide (id x = j)); [done|].
    specialize (IH k Hk Ht).
    destruct (list_find _ (delete k l)) as [[??]|],
      (list_find _ l) as [[??]|]; cbn in *; congruence.
Qed.

Lemma TaskAPI_get_answer (j : Z) (st : list Task) :
  fst (TaskAPI_get j st) =
    match snd <$> list_find (λ u, id u = j) st with
    | Some t => Ret (JObj [("task", marshal t task_fields)], 200)
    | None => Abort 404
    end.
Proof.
  rewrite TaskAPI_get_run. by destruct (list_find _ st) as [[??]|].
Qed.

(** X12: a request leaves the other tasks alone.  When the store holds a
    task with id [j], a read of [j] has the same answer before and after
    any request that is not an update or a delete of [j] itself. *)
Theorem X12_other_tasks_read_the_same (auth : authorization) (r : request)
    (st : list Task) (j : Z) :
  Exists (λ t, id t = j) st →
  spares r j →
  fst (dispatch user1 (GET_task j) (snd (dispatch auth r st))) =
    fst (dispatch user1 (GET_task j) st).
Proof.
  intros Hj Hr. destruct (decide (auth = user1)) as [->|Hne].
  2: { by destruct (dispatch_not_user1 auth r st Hne) as [-> | ->]. }
  rewrite (dispatch_user1 r st), (dispatch_user1 (GET_task j) st),
    (dispatch_user1 (GET_task j) (snd (view r st))).
  cbn [view]. rewrite (TaskAPI_get_answer j st), TaskAPI_get_answer.
  destruct r as [|body|i|i body|i]; cbn [view spares] in *.
  - done.
  - rewrite TaskListAPI_post_run. destruct (body !! "title"); [|done].
    cbn [snd]. apply list_find_present in Hj as [[k t] Hf].
    by rewrite (list_find_app_l _ _ _ _ _ Hf), Hf.
  - rewrite TaskAPI_get_run. by destruct (list_find _ st) as [[??]|].
  - rewrite TaskAPI_put_run.
    destruct (list_find (λ t, id t = i) st) as [[k t]|] eqn:Hf; [|done].
    apply list_find_Some in Hf as (Hk & <- & _). cbn [snd].
    rewrite (list_find_insert_other st k t); [done..|].
    by rewrite patched_id.
  - rewrite TaskAPI_delete_run.
    destruct (list_find (λ t, id t = i) st) as [[k t]|] eqn:Hf; [|done].
    apply list_find_Some in Hf as (Hk & <- & _). cbn [snd].
    by rewrite (list_find_delete_other st k t).
Qed.

Lemma marshal_uri (t : Task) :
  json_get (marshal t task_fields) "uri" = Some (JStr (task_uri t)).
Proof. done. Qed.

(** X13: the uri names the task.  In a reachable store two tasks whose
    external forms carry the same [uri] are one and the same element of the
    list. *)
Theorem X13_uri_identifies_the_task (st : list Task) (k1 k2 : nat)
    (t1 t2 : Task) :
  reachable st →
  st !! k1 = Some t1 →
  st !! k2 = Some t2 →
  json_get (marshal t1 task_fields) "uri" =
    json_get (marshal t2 task_fields) "uri" →
  k1 = k2 ∧ t1 = t2.
Proof.
  intros Hst%reachable_ids_increasing%ids_increasing_NoDup Hk1 Hk2.
  rewrite !marshal_uri. unfold task_uri. intros Huri.
  assert (Hid : id t1 = id t2).
  { injection Huri as Huri. by apply (inj (String.append _)), (inj pretty) in Huri. }
  assert (k1 = k2) as ->.
  { eapply (NoDup_lookup _ _ _ (id t1) Hst);
      rewrite list_lookup_fmap; [rewrite Hk1|rewrite Hk2]; cbn; congruence. }
  split; [done|]. congruence.
Qed.

(** X14: what a create stores.  With valid credentials a create is
    accepted whatever value the body carries under [title]: null is stored
    as [None], any other value as its text [str(v)].  A missing
    [description] is stored as the empty string, a null one as [None], any
    other one as its text; [done] starts as [False], and the id is the last
    id of the list plus one, or 1 on an empty list. *)
Theorem X14_what_post_stores (st : list Task) (body : gmap string json)
    (v : json) :
  body !! "title" = Some v →
  ∃ task,
    dispatch user1 (POST_tasks body) st =
      (Ret (JObj [("task", marshal task task_fields)], 201), st ++ [task]) ∧
    title task = match v with JNull => PNone | _ => PStr (py_str v) end ∧
    description task =
      match body !! "description" with
      | None => PStr ""
      | Some JNull => PNone
      | Some d => PStr (py_str d)
      end ∧
    done task = PBool false ∧
    id task = match last st with Some t => id t + 1 | None => 1 end.
Proof.
  intros Hb. exists (created body v st).
  rewrite dispatch_user1. cbn [view]. rewrite TaskListAPI_post_run, Hb.
  split_and!; done.
Qed.

(** X15: the list and the items agree.  In a reachable store the entry at
    position [k] of the list answer is the representation that a read of the
    id of the [k]-th task returns. *)
Theorem X15_list_entries_are_the_items (st : list Task) (k : nat) (t : Task) :
  reachable st →
  st !! k = Some t →
  ∃ entries e,
    dispatch user1 GET_tasks st =
      (Ret (JObj [("tasks", JArr entries)], 200), st) ∧
    length entries = length st ∧
    entries !! k = Some e ∧
    dispatch user1 (GET_task (id t)) st =
      (Ret (JObj [("task", e)], 200), st).
Proof.
  intros Hst%reachable_ids_increasing Hk.
  exists ((λ u, marshal u task_fields) <$> st), (marshal t task_fields).
  rewrite (dispatch_user1 GET_tasks), (dispatch_user1 (GET_task _)).
  cbn [view]. rewrite TaskListAPI_get_run, TaskAPI_get_run.
  rewrite (ids_increasing_find st k t Hst Hk).
  split_and!; [done|by rewrite length_fmap| |done].
  by rewrite list_lookup_fmap, Hk.
Qed.

(** X16: a created task shows up last.  After a create that succeeds the
    list answer is the former list answer followed by the representation
    the create returned. *)
Theorem X16_list_after_post (st : list Task) (body : gmap string json)
    (v : json) :
  body !! "title" = Some v →
  ∃ entries e st',
    dispatch user1 GET_tasks st =
      (Ret (JObj [("tasks", JArr entries)], 200), st) ∧
    dispatch user1 (POST_tasks body) st =
      (Ret (JObj [("task", e)], 201), st') ∧
    dispatch user1 GET_tasks st' =
      (Ret (JObj [("tasks", JArr (entries ++ [e]))], 200), st').
Proof.
  intros Hb.
  exists ((λ u, marshal u task_fields) <$> st),
    (marshal (created body v st) task_fields), (st ++ [created body v st]).
  rewrite (dispatch_user1 GET_tasks st), (dispatch_user1 (POST_tasks body) st),
    (dispatch_user1 GET_tasks (st ++ [created body v st])). cbn [view].
  rewrite (TaskListAPI_get_run st), (TaskListAPI_get_run (st ++ _)).
  rewrite TaskListAPI_post_run, Hb.
  by rewrite fmap_app.
Qed.

Lemma getitem_patched_unset (body : gmap string json) (t : Task) (f : field) :
  unset body f → getitem (patched body t) f = getitem t f.
Proof.
  unfold unset. intros Hu. destruct f; cbn [getitem field_name] in *;
    rewrite ?patched_title, ?patched_description, ?patched_done;
    by destruct Hu as [-> | ->].
Qed.

Lemma getitem_patched_fixed (body : gmap string json) (t u : Task)
    (f : field) :
  ¬ unset body f → getitem (patched body t) f = getitem (patched body u) f.
Proof.
  unfold unset. intros Hs. destruct f; cbn [getitem field_name] in *;
    rewrite ?patched_title, ?patched_description, ?patched_done.
  - destruct (body !! "title") as [[]|]; tauto.
  - destruct (body !! "description") as [[]|]; tauto.
  - destruct (body !! "done") as [[]|]; tauto.
Qed.

Lemma unset_dec (body : gmap string json) (f : field) :
  unset body f ∨ ¬ unset body f.
Proof.
  unfold unset. destruct (body !! field_name f) as [[]|]; first
    [by left; auto | right; intros [|]; discriminate].
Qed.

Lemma patched_comm (body1 body2 : gmap string json) (t : Task) :
  (∀ f, unset body1 f ∨ unset body2 f) →
  patched body2 (patched body1 t) = patched body1 (patched body2 t).
Proof.
  intros Hd. apply Task_ext; [by rewrite !patched_id|]. intros f.
  destruct (Hd f) as [H1|H2].
  - rewrite (getitem_patched_unset body1 (patched body2 t)) by done.
    destruct (unset_dec body2 f) as [H2|H2].
    + by rewrite !getitem_patched_unset.
    + apply getitem_patched_fixed. done.
  - rewrite (getitem_patched_unset body2 (patched body1 t)) by done.
    destruct (unset_dec body1 f) as [H1|H1].
    + by rewrite !getitem_patched_unset.
    + symmetry. apply getitem_patched_fixed. done.
Qed.

(** X17: updates of different keys commute.  When no key gets a value
    from both bodies, two updates of the same id leave the same list in
    either order. *)
Theorem X17_puts_of_different_keys_commute (i : Z)
    (body1 body2 : gmap string json) (st : list Task) :
  (∀ f, unset body1 f ∨ unset body2 f) →
  snd (dispatch user1 (PUT_task i body2)
         (snd (dispatch user1 (PUT_task i body1) st))) =
    snd (dispatch user1 (PUT_task i body1)
           (snd (dispatch user1 (PUT_task i body2) st))).
Proof.
  intros Hd.
  rewrite (dispatch_user1 (PUT_task i body1) st),
    (dispatch_user1 (PUT_task i body2) st).
  cbn [view].
  rewrite (TaskAPI_put_run i body1 st), (TaskAPI_put_run i body2 st).
  destruct (list_find (λ t, id t = i) st) as [[k t]|] eqn:Hf; cbn [snd].
  - pose proof Hf as (_ & Hid & _)%list_find_Some.
    rewrite (dispatch_user1 (PUT_task i body2) (<[k:=patched body1 t]> st)),
      (dispatch_user1 (PUT_task i body1) (<[k:=patched body2 t]> st)).
    cbn [view].
    rewrite (TaskAPI_put_run i body2 (<[k:=patched body1 t]> st)),
      (TaskAPI_put_run i body1 (<[k:=patched body2 t]> st)).
    rewrite (list_find_insert_same st i k t (patched body1 t) Hf)
      by (by rewrite patched_id).
    rewrite (list_find_insert_same st i k t (patched body2 t) Hf)
      by (by rewrite patched_id).
    cbn [snd]. rewrite !list_insert_insert_eq. by rewrite patched_comm.
  - rewrite (dispatch_user1 (PUT_task i body2) st),
      (dispatch_user1 (PUT_task i body1) st).
    cbn [view].
    rewrite (TaskAPI_put_run i body1 st), (TaskAPI_put_run i body2 st).
    by rewrite Hf.
Qed.

End App.

(** ** Closed instances *)

(** The fresh list and a create with the body {title: Buy milk}. *)
Lemma C10_initial_store_witness :
  title_only !! "title" = Some (JStr "Buy milk") ∧
  tasks = [buy_groceries; learn_python] ∧
  tasks ≠ [] ∧
  length tasks = 2%nat ∧
  ∃ task,
    dispatch no_repr user1 (POST_tasks title_only) tasks =
      (Ret (JObj [("task", marshal task task_fields)], 201), tasks ++ [task]) ∧
    id task = 3.
Proof.
  split; [reflexivity|].
  apply (C10_initial_store no_repr title_only (JStr "Buy milk")).
  reflexivity.
Defined.

(** The create above yields task 3 at the end of the fresh list. *)
Lemma C1_post_assigns_max_id_plus_one_witness :
  reachable no_repr tasks ∧
  dispatch no_repr user1 (POST_tasks title_only) tasks =
    (Ret (JObj [("task", marshal buy_milk task_fields)], 201),
     tasks ++ [buy_milk]) ∧
  status_of (Ret (JObj [("task", marshal buy_milk task_fields)], 201)) = 201 ∧
  ∃ task,
    tasks ++ [buy_milk] = tasks ++ [task] ∧
    Ret (JObj [("task", marshal buy_milk task_fields)], 201) =
      Ret (JObj [("task", marshal task task_fields)], 201) ∧
    ((tasks = [] ∧ id task = 1) ∨ (∃ m, max_id tasks m ∧ id task = m + 1)).
Proof.
  split; [apply reachable_init|].
  split; [vm_compute; reflexivity|].
  split; [reflexivity|].
  apply (C1_post_assigns_max_id_plus_one no_repr tasks (tasks ++ [buy_milk])
           user1 title_only).
  - apply reachable_init.
  - vm_compute; reflexivity.
  - reflexivity.
Defined.

(** The same create: empty description, not done, a new id. *)
Lemma C7_post_defaults_witness :
  reachable no_repr tasks ∧
  title_only !! "title" = Some (JStr "Buy milk") ∧
  title_only !! "description" = None ∧
  ∃ task,
    dispatch no_repr user1 (POST_tasks title_only) tasks =
      (Ret (JObj [("task", marshal task task_fields)], 201), tasks ++ [task]) ∧
    title task = PStr "Buy milk" ∧
    description task = PStr "" ∧
    done task = PBool false ∧
    ∀ t, t ∈ tasks → id t ≠ id task.
Proof.
  split; [apply reachable_init|].
  split; [reflexivity|].
  split; [reflexivity|].
  apply (C7_post_defaults no_repr tasks title_only "Buy milk").
  - apply reachable_init.
  - reflexivity.
  - reflexivity.
Defined.

(** The fresh list has increasing ids and keeps them under any request. *)
Lemma C9_ids_strictly_increasing_witness :
  reachable no_repr tasks ∧
  StronglySorted Z.lt (id <$> tasks) ∧
  NoDup (id <$> tasks) ∧
  (∀ t, last tasks = Some t → max_id tasks (id t) ∧ next_id tasks = id t + 1) ∧
  ∀ auth r, StronglySorted Z.lt (id <$> snd (dispatch no_repr auth r tasks)).
Proof.
  split; [apply reachable_init|].
  apply (C9_ids_strictly_increasing no_repr tasks).
  apply reachable_init.
Defined.

(** An update of task 2 with the body {done: true}. *)
Lemma C2_put_overwrites_present_fields_witness :
  reachable no_repr tasks ∧
  tasks !! 1%nat = Some learn_python ∧
  ∃ t',
    dispatch no_repr user1 (PUT_task (id learn_python) done_true) tasks =
      (Ret (JObj [("task", marshal t' task_fields)], 200),
       <[1%nat := t']> tasks) ∧
    id t' = id learn_python ∧
    (∀ f, ∃ a, a ∈ TaskAPI_reqparse ∧ name a = f ∧
       getitem t' f =
         match done_true !! field_name f with
         | None | Some JNull => getitem learn_python f
         | Some v => convert no_repr (type a) v
         end) ∧
    (∀ s, done_true !! "title" = Some (JStr s) → title t' = PStr s) ∧
    (∀ s, done_true !! "description" = Some (JStr s) →
       description t' = PStr s) ∧
    (∀ b, done_true !! "done" = Some (JBool b) → done t' = PBool b).
Proof.
  split; [apply reachable_init|].
  split; [reflexivity|].
  apply (C2_put_overwrites_present_fields no_repr tasks 1 learn_python
           done_true).
  - apply reachable_init.
  - reflexivity.
Defined.

(** C3: an update whose [done] is a text, or whose [title] is a number, is
    expected to be turned down with 400.  The code answers 200 instead:
    the update of task 2 with the body {"done": "false"} marks the task
    done, and the update with the body {"title": 5} stores the text 5. *)
Theorem C3_put_wrong_type_is_applied :
  dispatch no_repr user1 (PUT_task 2 done_text) tasks =
    (Ret (JObj [("task",
                 JObj [ ("title", JStr "Learn Python");
                        ("description",
                         JStr "Need to find a good Python tutorial on the web");
                        ("done", JBool true);
                        ("uri", JStr "/todo/api/v1.0/tasks/2") ])], 200),
     [ buy_groceries;
       mkTask 2 (PStr "Learn Python")
         (PStr "Need to find a good Python tutorial on the web")
         (PBool true) ]) ∧
  status_of (fst (dispatch no_repr user1 (PUT_task 2 done_text) tasks)) ≠ 400 ∧
  snd (dispatch no_repr user1 (PUT_task 2 title_number) tasks) =
    [ buy_groceries;
      mkTask 2 (PStr "5")
        (PStr "Need to find a good Python tutorial on the web")
        (PBool false) ] ∧
  status_of (fst (dispatch no_repr user1 (PUT_task 2 title_number) tasks)) ≠ 400.
Proof.
  split_and!.
  - vm_compute; reflexivity.
  - vm_compute; discriminate.
  - vm_compute; reflexivity.
  - vm_compute; discriminate.
Qed.

(** C4: credentials other than user1 / password are expected to be answered
    403.  With the user name user1 and the password pässword the password
    comparison raises, and the code answers 500 on every endpoint; the view
    is not run and the store is unchanged. *)
Theorem C4_non_ascii_password_answers_500 :
  non_ascii_credentials ≠ Some ("user1", "password") ∧
  (∀ r st,
     dispatch no_repr non_ascii_credentials r st = (Abort 500, st)) ∧
  status_of (fst (dispatch no_repr non_ascii_credentials GET_tasks tasks))
    ≠ 403 ∧
  dispatch no_repr non_ascii_credentials (DELETE_task 1) tasks =
    (Abort 500, tasks).
Proof.
  split_and!.
  - discriminate.
  - intros r st. unfold dispatch. by apply login_required_raises.
  - vm_compute; discriminate.
  - vm_compute; reflexivity.
Qed.

(** A delete with the right user and a wrong password. *)
Lemma X18_bad_credentials_are_refused_witness :
  Some ("user1", "secret") ≠ Some ("user1", "password") ∧
  password_not_ascii (Some ("user1", "secret")) = false ∧
  dispatch no_repr (Some ("user1", "secret")) (DELETE_task 1) tasks =
    (Ret (JObj [("message", JStr "Unauthorized access")], 403), tasks) ∧
  ∀ f : M response,
    login_required f (Some ("user1", "secret")) tasks =
      (Ret (JObj [("message", JStr "Unauthorized access")], 403), tasks).
Proof.
  split; [discriminate|].
  split; [reflexivity|].
  apply (X18_bad_credentials_are_refused no_repr (Some ("user1", "secret"))
           (DELETE_task 1) tasks).
  - discriminate.
  - reflexivity.
Defined.

(** A create whose body has [done] but no [title]. *)
Lemma C5_failing_requests_keep_store_witness :
  refused tasks (POST_tasks done_true) 400 ∧
  dispatch no_repr user1 (POST_tasks done_true) tasks = (Abort 400, tasks) ∧
  (∀ auth, snd (dispatch no_repr auth (POST_tasks done_true) tasks) = tasks) ∧
  ∀ auth' r',
    status_of (fst (dispatch no_repr auth' r' tasks)) ≠ 200 →
    status_of (fst (dispatch no_repr auth' r' tasks)) ≠ 201 →
    snd (dispatch no_repr auth' r' tasks) = tasks.
Proof.
  split; [apply refused_post; reflexivity|].
  apply (C5_failing_requests_keep_store no_repr tasks (POST_tasks done_true)
           400).
  apply refused_post. reflexivity.
Defined.

(** A delete of task 1 on the fresh list. *)
Lemma C6_delete_removes_one_witness :
  reachable no_repr tasks ∧
  (∃ t, t ∈ tasks ∧ id t = 1) ∧
  ∃ before t after,
    tasks = before ++ t :: after ∧
    id t = 1 ∧
    dispatch no_repr user1 (DELETE_task 1) tasks =
      (Ret (JObj [("result", JBool true)], 200), before ++ after) ∧
    (∀ u, u ∈ before ++ after → id u ≠ 1) ∧
    S (length (before ++ after)) = length tasks ∧
    dispatch no_repr user1 (GET_task 1) (before ++ after) =
      (Abort 404, before ++ after).
Proof.
  split; [apply reachable_init|].
  split; [exists buy_groceries; split; [left|reflexivity]|].
  apply (C6_delete_removes_one no_repr tasks 1).
  - apply reachable_init.
  - exists buy_groceries. split; [left|reflexivity].
Defined.

(** A read of task 2 on the fresh list. *)
Lemma C8_external_representation_witness :
  dispatch no_repr user1 (GET_task 2) tasks =
    (Ret (JObj [("task", marshal learn_python task_fields)], 200), tasks) ∧
  200 ≠ 403 ∧
  (∀ t,
     marshal t task_fields =
       JObj [ ("title", output fields_String "title" t);
              ("description", output fields_String "description" t);
              ("done", output fields_Boolean "done" t);
              ("uri", JStr (task_uri t)) ] ∧
     json_keys (marshal t task_fields) =
       ["title"; "description"; "done"; "uri"] ∧
     ("id" ∉ json_keys (marshal t task_fields)) ∧
     json_get (marshal t task_fields) "uri" = Some (JStr (task_uri t))) ∧
  ∃ t, t ∈ tasks ∧
    JObj [("task", marshal learn_python task_fields)] =
      JObj [("task", marshal t task_fields)].
Proof.
  split; [vm_compute; reflexivity|].
  split; [discriminate|].
  apply (C8_external_representation no_repr user1 (GET_task 2) tasks tasks
           (JObj [("task", marshal learn_python task_fields)]) 200).
  - vm_compute; reflexivity.
  - discriminate.
Defined.

(** An update of task 2 with an empty body. *)
Lemma X6_put_without_values_is_get_witness :
  (∀ f, (∅ : gmap string json) !! field_name f = None ∨
        (∅ : gmap string json) !! field_name f = Some JNull) ∧
  dispatch no_repr user1 (PUT_task 2 ∅) tasks =
    dispatch no_repr user1 (GET_task 2) tasks.
Proof.
  split; [intros f; left; reflexivity|].
  apply (X6_put_without_values_is_get no_repr 2 ∅ tasks).
  intros f. left. reflexivity.
Defined.

(** A create on the fresh list, then a read of task 3. *)
Lemma X7_get_after_post_witness :
  reachable no_repr tasks ∧
  title_only !! "title" = Some (JStr "Buy milk") ∧
  ∃ task e,
    dispatch no_repr user1 (POST_tasks title_only) tasks =
      (Ret (JObj [("task", e)], 201), tasks ++ [task]) ∧
    dispatch no_repr user1 (GET_task (id task)) (tasks ++ [task]) =
      (Ret (JObj [("task", e)], 200), tasks ++ [task]).
Proof.
  split; [apply reachable_init|].
  split; [reflexivity|].
  apply (X7_get_after_post no_repr tasks title_only (JStr "Buy milk")).
  - apply reachable_init.
  - reflexivity.
Defined.

(** A create on the fresh list, then a delete of task 3. *)
Lemma X8_delete_after_post_witness :
  reachable no_repr tasks ∧
  title_only !! "title" = Some (JStr "Buy milk") ∧
  ∃ task,
    snd (dispatch no_repr user1 (POST_tasks title_only) tasks) =
      tasks ++ [task] ∧
    dispatch no_repr user1 (DELETE_task (id task)) (tasks ++ [task]) =
      (Ret (JObj [("result", JBool true)], 200), tasks).
Proof.
  split; [apply reachable_init|].
  split; [reflexivity|].
  apply (X8_delete_after_post no_repr tasks title_only (JStr "Buy milk")).
  - apply reachable_init.
  - reflexivity.
Defined.

(** Create "Buy milk", delete it, create a task titled 5: both get id 3. *)
Lemma X9_id_reused_after_delete_witness :
  reachable no_repr tasks ∧
  title_only !! "title" = Some (JStr "Buy milk") ∧
  title_number !! "title" = Some (JInt 5) ∧
  ∃ task1 task2 st1 st2 st3,
    dispatch no_repr user1 (POST_tasks title_only) tasks =
      (Ret (JObj [("task", marshal task1 task_fields)], 201), st1) ∧
    dispatch no_repr user1 (DELETE_task (id task1)) st1 =
      (Ret (JObj [("result", JBool true)], 200), st2) ∧
    dispatch no_repr user1 (POST_tasks title_number) st2 =
      (Ret (JObj [("task", marshal task2 task_fields)], 201), st3) ∧
    task1 ∈ st1 ∧ task2 ∈ st3 ∧
    id task2 = id task1 ∧
    json_get (marshal task2 task_fields) "uri" =
      json_get (marshal task1 task_fields) "uri".
Proof.
  split; [apply reachable_init|].
  split; [reflexivity|].
  split; [reflexivity|].
  apply (X9_id_reused_after_delete no_repr tasks title_only title_number
           (JStr "Buy milk") (JInt 5)).
  - apply reachable_init.
  - reflexivity.
  - reflexivity.
Defined.

(** The second task of the fresh list. *)
Lemma X10_fields_keep_their_types_witness :
  reachable no_repr tasks ∧
  learn_python ∈ tasks ∧
  well_typed learn_python ∧
  (output fields_String "title" learn_python = JNull ∨
   ∃ s, output fields_String "title" learn_python = JStr s) ∧
  (output fields_String "description" learn_python = JNull ∨
   ∃ s, output fields_String "description" learn_python = JStr s) ∧
  ∃ b, output fields_Boolean "done" learn_python = JBool b.
Proof.
  split; [apply reachable_init|].
  split; [right; left|].
  apply (X10_fields_keep_their_types no_repr tasks learn_python).
  - apply reachable_init.
  - right. left.
Defined.

(** The second task of the fresh list. *)
Lemma X11_ids_are_positive_witness :
  reachable no_repr tasks ∧ learn_python ∈ tasks ∧ 1 ≤ id learn_python.
Proof.
  split; [apply reachable_init|].
  split; [right; left|].
  apply (X11_ids_are_positive no_repr tasks learn_python).
  - apply reachable_init.
  - right. left.
Defined.

(** A delete of task 1 and a read of task 2. *)
Lemma X12_other_tasks_read_the_same_witness :
  Exists (λ t, id t = 2) tasks ∧
  spares (DELETE_task 1) 2 ∧
  fst (dispatch no_repr user1 (GET_task 2)
         (snd (dispatch no_repr user1 (DELETE_task 1) tasks))) =
    fst (dispatch no_repr user1 (GET_task 2) tasks).
Proof.
  split; [right; left; reflexivity|].
  split; [discriminate|].
  apply (X12_other_tasks_read_the_same no_repr user1 (DELETE_task 1) tasks 2).
  - right. left. reflexivity.
  - discriminate.
Defined.

(** The second task of the fresh list, looked up twice. *)
Lemma X13_uri_identifies_the_task_witness :
  reachable no_repr tasks ∧
  tasks !! 1%nat = Some learn_python ∧
  json_get (marshal learn_python task_fields) "uri" =
    json_get (marshal learn_python task_fields) "uri" ∧
  1%nat = 1%nat ∧ learn_python = learn_python.
Proof.
  split; [apply reachable_init|].
  split; [reflexivity|].
  split; [reflexivity|].
  apply (X13_uri_identifies_the_task no_repr tasks 1 1 learn_python
           learn_python).
  - apply reachable_init.
  - reflexivity.
  - reflexivity.
  - reflexivity.
Defined.

(** A create whose title is the number 5. *)
Lemma X14_what_post_stores_witness :
  title_number !! "title" = Some (JInt 5) ∧
  ∃ task,
    dispatch no_repr user1 (POST_tasks title_number) tasks =
      (Ret (JObj [("task", marshal task task_fields)], 201), tasks ++ [task]) ∧
    title task = PStr (py_str no_repr (JInt 5)) ∧
    description task =
      match title_number !! "description" with
      | None => PStr ""
      | Some JNull => PNone
      | Some d => PStr (py_str no_repr d)
      end ∧
    done task = PBool false ∧
    id task = match last tasks with Some t => id t + 1 | None => 1 end.
Proof.
  split; [reflexivity|].
  apply (X14_what_post_stores no_repr tasks title_number (JInt 5)).
  reflexivity.
Defined.

(** The second entry of the list and a read of task 2. *)
Lemma X15_list_entries_are_the_items_witness :
  reachable no_repr tasks ∧
  tasks !! 1%nat = Some learn_python ∧
  ∃ entries e,
    dispatch no_repr user1 GET_tasks tasks =
      (Ret (JObj [("tasks", JArr entries)], 200), tasks) ∧
    length entries = length tasks ∧
    entries !! 1%nat = Some e ∧
    dispatch no_repr user1 (GET_task (id learn_python)) tasks =
      (Ret (JObj [("task", e)], 200), tasks).
Proof.
  split; [apply reachable_init|].
  split; [reflexivity|].
  apply (X15_list_entries_are_the_items no_repr tasks 1 learn_python).
  - apply reachable_init.
  - reflexivity.
Defined.

(** A list, a create, and a list again. *)
Lemma X16_list_after_post_witness :
  title_only !! "title" = Some (JStr "Buy milk") ∧
  ∃ entries e st',
    dispatch no_repr user1 GET_tasks tasks =
      (Ret (JObj [("tasks", JArr entries)], 200), tasks) ∧
    dispatch no_repr user1 (POST_tasks title_only) tasks =
      (Ret (JObj [("task", e)], 201), st') ∧
    dispatch no_repr user1 GET_tasks st' =
      (Ret (JObj [("tasks", JArr (entries ++ [e]))], 200), st').
Proof.
  split; [reflexivity|].
  apply (X16_list_after_post no_repr tasks title_only (JStr "Buy milk")).
  reflexivity.
Defined.

(** An update of the title and an update of [done], in both orders. *)
Lemma X17_puts_of_different_keys_commute_witness :
  (∀ f, unset title_number f ∨ unset done_true f) ∧
  snd (dispatch no_repr user1 (PUT_task 2 done_true)
         (snd (dispatch no_repr user1 (PUT_task 2 title_number) tasks))) =
    snd (dispatch no_repr user1 (PUT_task 2 title_number)
           (snd (dispatch no_repr user1 (PUT_task 2 done_true) tasks))).
Proof.
  assert (Hd : ∀ f, unset title_number f ∨ unset done_true f).
  { intros []; [right|left|left]; left; reflexivity. }
  split; [exact Hd|].
  apply (X17_puts_of_different_keys_commute no_repr 2 title_number done_true
           tasks).
  exact Hd.
Defined.
